(** * Live LaTeX decorations for the editor: a shallow embedding

    This development embeds the CodeMirror LaTeX plugin
    ([web/cm_plugins/latex.ts]) and the second revision of the same plugin
    that ships next to it.  Both revisions share the two widget classes and
    the decoration builder [createLatexDecorations]; they differ in the
    view controller returned by [latexPlugin] (how a pointer drag is
    tracked and how the rebuild after a drag is deferred).

    Conventions
    - document offsets are JavaScript numbers that hold integers: [Z];
    - a JavaScript string is a sequence of code units: [string], one
      character per code unit;
    - timer ids and milliseconds are [nat];
    - mutable objects (DOM elements, the console, the controller's fields
      and the closure variables of [latexPlugin]) are explicit state. *)

From Stdlib Require Import ZArith Lia Bool Ascii.
From stdpp Require Import base list strings gmap.

Local Open Scope Z_scope.

(** ** Strings *)

(** [a === b] on two strings. *)
Definition str_eqb (a b : string) : bool := String.eqb a b.

(** [Text.sliceString(from, to)] of the editor substrate: both offsets are
    clipped into the document and an inverted range yields the empty
    string. *)
Definition sliceString (doc : string) (from to : Z) : string :=
  let len := Z.of_nat (String.length doc) in
  let from' := Z.max 0 (Z.min len from) in
  let to' := Z.max from' (Z.min len to) in
  String.substring (Z.to_nat from') (Z.to_nat (to' - from')) doc.

(** The regular expression [/^\$\$(.*?)\$\$$/s] applied with [exec] to a
    whole string.  [^] pins the match to offset 0; after the two opening
    dollars the lazy group grows one code unit at a time (the [s] flag
    lets [.] match line breaks too) and after each step the tail
    [\$\$$] is tried: two dollars followed by the end of the input.
    [lazy_group rest acc] is that loop, [acc] being the group so far. *)
Fixpoint lazy_group (rest acc : string) : option string :=
  if str_eqb rest "$$" then Some acc
  else match rest with
       | EmptyString => None
       | String c rest' => lazy_group rest' (acc +:+ String c EmptyString)
       end.

(** [match = regex.exec(text)]; the result is [match[1]] when the match
    succeeds and [None] for JavaScript's [null]. *)
Definition display_regex_exec (text : string) : option string :=
  match text with
  | String c1 (String c2 rest) =>
      if Ascii.eqb c1 "$" && Ascii.eqb c2 "$" then lazy_group rest "" else None
  | _ => None
  end.

(** ** The editor substrate as seen by the plugin *)

(** A node handed to the [enter] callback of [tree.iterate]. *)
Record SyntaxNode := mkNode {
  name : string;
  node_from : Z;
  node_to : Z
}.

(** A syntax tree: an object with an identity (compared with [!==] by the
    controller) and its nodes in document order. *)
Record Tree := mkTree {
  tree_id : nat;
  tree_nodes : list SyntaxNode
}.

(** [tree.iterate({from, to, enter})] enters, in document order, the nodes
    that touch the range. *)
Definition iterate (t : Tree) (from to : Z) : list SyntaxNode :=
  List.filter (fun n => (node_from n <=? to) && (from <=? node_to n))
              (tree_nodes t).

(** A selection range has an anchor and a head; [from]/[to] are the
    smaller and the larger of the two. *)
Record SelectionRange := mkRange {
  anchor : Z;
  head : Z
}.

Definition range_from (r : SelectionRange) : Z := Z.min (anchor r) (head r).
Definition range_to (r : SelectionRange) : Z := Z.max (anchor r) (head r).

(** [EditorSelection]: the ranges and the index of the main one. *)
Record EditorSelection := mkSelection {
  ranges : list SelectionRange;
  mainIndex : nat
}.

Definition main (s : EditorSelection) : SelectionRange :=
  nth (mainIndex s) (ranges s) (mkRange 0 0).

Record EditorState := mkState {
  doc : string;
  selection : EditorSelection;
  syntaxTree : Tree
}.

Record EditorView := mkView {
  state : EditorState;
  visibleRanges : list (Z * Z)
}.

(** The part of the client the widgets use. *)
Record Client := mkClient {
  currentPage : string;
  has_dispatchClickEvent : bool
}.

(** ** Widgets and decorations *)

Record InlineLatexWidget := mkInline {
  inline_formula : string;
  inline_client : Client;
  inline_pos : Z
}.

Record DisplayLatexWidget := mkDisplay {
  display_formula : string;
  display_client : Client;
  display_pos : Z
}.

(** [eq] of the two classes. *)
Definition InlineLatexWidget_eq (this other : InlineLatexWidget) : bool :=
  str_eqb (inline_formula other) (inline_formula this).

Definition DisplayLatexWidget_eq (this other : DisplayLatexWidget) : bool :=
  str_eqb (display_formula other) (display_formula this).

Inductive WidgetType :=
| InlineW (w : InlineLatexWidget)
| DisplayW (w : DisplayLatexWidget).

Definition widget_formula (w : WidgetType) : string :=
  match w with
  | InlineW i => inline_formula i
  | DisplayW d => display_formula d
  end.

Definition widget_pos (w : WidgetType) : Z :=
  match w with
  | InlineW i => inline_pos i
  | DisplayW d => display_pos d
  end.

(** The argument of [Decoration.replace]. *)
Record ReplaceSpec := mkReplace {
  widget : WidgetType;
  inclusive : bool;
  widgetBuffer : option bool
}.

(** [deco.range(from, to)]. *)
Record DecoRange := mkDecoRange {
  deco_from : Z;
  deco_to : Z;
  deco : ReplaceSpec
}.

(** ** Console *)

Inductive LogEntry :=
| LogNodeInSelection (nodeFrom nodeTo selFrom selTo : Z)
| LogFoundDisplay (formula : string)
| ErrFailedToExtract (text : string)
| LogCreated (inlineCount displayCount : nat)
| ErrKatex (error : string)
| LogDisplayClicked (pos : Z)
| LogMessage (msg : string).

(** ** The decoration builder *)

(** [isNodeInSelection]: the first overlapping range is logged and ends
    the loop. *)
Fixpoint isNodeInSelection (selections : list SelectionRange)
    (nodeFrom nodeTo : Z) : bool * list LogEntry :=
  match selections with
  | [] => (false, [])
  | range :: rest =>
      if (range_from range <? nodeTo) && (range_to range >? nodeFrom)
      then (true, [LogNodeInSelection nodeFrom nodeTo
                     (range_from range) (range_to range)])
      else isNodeInSelection rest nodeFrom nodeTo
  end.

Definition isCursorInside (cursorPos nodeFrom nodeTo : Z) : bool :=
  (cursorPos >=? nodeFrom) && (cursorPos <=? nodeTo).

(** The variables the [enter] closure writes to. *)
Record Builder := mkBuilder {
  widgets : list DecoRange;
  inlineCount : nat;
  displayCount : nat;
  console : list LogEntry
}.

Definition push_log (b : Builder) (l : list LogEntry) : Builder :=
  mkBuilder (widgets b) (inlineCount b) (displayCount b) (console b ++ l).

(** The [enter] callback. *)
Definition enter (view : EditorView) (client : Client)
    (b : Builder) (node : SyntaxNode) : Builder :=
  let selections := ranges (selection (state view)) in
  let cursorPos := head (main (selection (state view))) in
  if str_eqb (name node) "InlineLatex" then
    let nodeFrom := node_from node in
    let nodeTo := node_to node in
    let formula := sliceString (doc (state view)) (nodeFrom + 1) (nodeTo - 1) in
    let isCursorInside := isCursorInside cursorPos nodeFrom nodeTo in
    let '(isInSelection, logged) := isNodeInSelection selections nodeFrom nodeTo in
    let b := push_log b logged in
    if negb isCursorInside && negb isInSelection then
      let deco := mkReplace (InlineW (mkInline formula client (nodeFrom + 1)))
                            true None in
      mkBuilder (widgets b ++ [mkDecoRange nodeFrom nodeTo deco])
                (S (inlineCount b)) (displayCount b) (console b)
    else b
  else if str_eqb (name node) "DisplayLatex" then
    let nodeFrom := node_from node in
    let nodeTo := node_to node in
    let isCursorInside := isCursorInside cursorPos nodeFrom nodeTo in
    let '(isInSelection, logged) := isNodeInSelection selections nodeFrom nodeTo in
    let b := push_log b logged in
    if negb isCursorInside && negb isInSelection then
      let b := mkBuilder (widgets b) (inlineCount b) (S (displayCount b))
                         (console b) in
      let text := sliceString (doc (state view)) nodeFrom nodeTo in
      match display_regex_exec text with
      | Some formula =>
          let b := push_log b [LogFoundDisplay formula] in
          let deco := mkReplace (DisplayW (mkDisplay formula client (nodeFrom + 2)))
                                true (Some false) in
          mkBuilder (widgets b ++ [mkDecoRange nodeFrom nodeTo deco])
                    (inlineCount b) (displayCount b) (console b)
      | None => push_log b [ErrFailedToExtract text]
      end
    else b
  else b.

(** [Decoration.set(widgets, true)]: the ranges sorted by [from], ranges
    with equal [from] keeping their order. *)
Fixpoint insert_sorted (d : DecoRange) (l : list DecoRange) : list DecoRange :=
  match l with
  | [] => [d]
  | x :: rest =>
      if deco_from d <? deco_from x then d :: l
      else x :: insert_sorted d rest
  end.

Definition Decoration_set (l : list DecoRange) : list DecoRange :=
  fold_left (fun acc d => insert_sorted d acc) l [].

Definition new_builder : Builder := mkBuilder [] 0 0 [].

(** The two loops of [createLatexDecorations]: over the visible ranges and,
    inside, over the nodes [iterate] enters. *)
Definition walk (view : EditorView) (client : Client) : Builder :=
  fold_left
    (fun b '(from, to) =>
       fold_left (enter view client)
                 (iterate (syntaxTree (state view)) from to) b)
    (visibleRanges view) new_builder.

(** [createLatexDecorations]: the decoration set and what was logged. *)
Definition createLatexDecorations (view : EditorView) (client : Client)
    : list DecoRange * list LogEntry :=
  let b := walk view client in
  (Decoration_set (widgets b),
   console b ++ [LogCreated (inlineCount b) (displayCount b)]).

(** ** The DOM and the typesetter *)

(** What a click on a rendered widget runs: the listener closes over the
    widget it was created by. *)
Inductive ClickListener :=
| InlineClick (this : InlineLatexWidget)
| DisplayClick (this : DisplayLatexWidget).

(** Children of an element: text, another element of the heap, or markup
    produced by the typesetter. *)
Inductive DomNode :=
| Text (data : string)
| Child (element : nat)
| Typeset (markup : string).

Record Element := mkElement {
  tagName : string;
  classList : list string;
  childNodes : list DomNode;
  clickListeners : list ClickListener
}.

(** Elements are objects: they live in a heap and are named by their
    index; the console is the other piece of global state. *)
Record World := mkWorld {
  world_console : list LogEntry;
  heap : list Element
}.

(** A call completes normally or throws; the world it leaves behind is
    there in both cases. *)
Inductive Completion (A : Type) :=
| Normal (a : A)
| Throw (error : string).
Arguments Normal {A} a.
Arguments Throw {A} error.

Definition Js (A : Type) : Type := World -> Completion A * World.

#[global] Instance Js_ret : MRet Js := fun A a w => (Normal a, w).

#[global] Instance Js_bind : MBind Js := fun A B k m w =>
  match m w with
  | (Normal a, w') => k a w'
  | (Throw e, w') => (Throw e, w')
  end.

(** [try { body } catch (error) { handler }]. *)
Definition try_catch {A} (body : Js A) (handler : string -> Js A) : Js A :=
  fun w =>
    match body w with
    | (Normal a, w') => (Normal a, w')
    | (Throw e, w') => handler e w'
    end.

Definition modify_element (id : nat) (f : Element -> Element) : Js unit :=
  fun w => (Normal tt, mkWorld (world_console w) (alter f id (heap w))).

Definition createElement (tag : string) : Js nat :=
  fun w => (Normal (length (heap w)),
            mkWorld (world_console w) (heap w ++ [mkElement tag [] [] []])).

Definition set_className (id : nat) (cls : string) : Js unit :=
  modify_element id (fun e =>
    mkElement (tagName e) [cls] (childNodes e) (clickListeners e)).

Definition classList_add (id : nat) (cls : string) : Js unit :=
  modify_element id (fun e =>
    mkElement (tagName e)
              (if existsb (str_eqb cls) (classList e) then classList e
               else classList e ++ [cls])
              (childNodes e) (clickListeners e)).

(** Assigning [textContent] replaces all children by one text node (by
    none for the empty string). *)
Definition set_textContent (id : nat) (s : string) : Js unit :=
  modify_element id (fun e =>
    mkElement (tagName e) (classList e)
              (if str_eqb s "" then [] else [Text s]) (clickListeners e)).

Definition appendChild (parent child : nat) : Js unit :=
  modify_element parent (fun e =>
    mkElement (tagName e) (classList e) (childNodes e ++ [Child child])
              (clickListeners e)).

Definition addEventListener_click (id : nat) (l : ClickListener) : Js unit :=
  modify_element id (fun e =>
    mkElement (tagName e) (classList e) (childNodes e) (clickListeners e ++ [l])).

Definition console_error (entry : LogEntry) : Js unit :=
  fun w => (Normal tt, mkWorld (world_console w ++ [entry]) (heap w)).

Section Widgets.

(** The typesetter, [katex.render(formula, target, {displayMode, ...})]:
    from the formula, the mode and the children of the target it
    decides the children it leaves in the target and whether it throws
    (and then what).  It is a collaborator, so it is a variable here. *)
Variable katex_impl :
  string -> bool -> list DomNode -> list DomNode * option string.

Definition katex_render (formula : string) (target : nat)
    (displayMode : bool) : Js unit :=
  fun w =>
    match heap w !! target with
    | None => (Throw "TypeError", w)
    | Some e =>
        let '(kids, thrown) := katex_impl formula displayMode (childNodes e) in
        let w' := mkWorld (world_console w)
                    (<[target := mkElement (tagName e) (classList e) kids
                                           (clickListeners e)]> (heap w)) in
        match thrown with
        | None => (Normal tt, w')
        | Some error => (Throw error, w')
        end
    end.

(** [InlineLatexWidget.toDOM]; the result is the wrapper. *)
Definition InlineLatexWidget_toDOM (this : InlineLatexWidget) : Js nat :=
  wrapper ← createElement "span";
  set_className wrapper "sb-latex-inline";;
  try_catch
    (katex_render (inline_formula this) wrapper false)
    (fun error =>
       console_error (ErrKatex error);;
       set_textContent wrapper ("$" +:+ inline_formula this +:+ "$");;
       classList_add wrapper "sb-latex-error");;
  addEventListener_click wrapper (InlineClick this);;
  mret wrapper.

(** [DisplayLatexWidget.toDOM]; the result is the wrapper. *)
Definition DisplayLatexWidget_toDOM (this : DisplayLatexWidget) : Js nat :=
  wrapper ← createElement "div";
  set_className wrapper "sb-latex-display";;
  try_catch
    (katexOutput ← createElement "div";
     set_className katexOutput "sb-latex-katex-output";;
     katex_render (display_formula this) katexOutput true;;
     appendChild wrapper katexOutput)
    (fun error =>
       console_error (ErrKatex error);;
       set_textContent wrapper ("$$" +:+ display_formula this +:+ "$$");;
       classList_add wrapper "sb-latex-error");;
  addEventListener_click wrapper (DisplayClick this);;
  mret wrapper.

Definition toDOM (w : WidgetType) : Js nat :=
  match w with
  | InlineW i => InlineLatexWidget_toDOM i
  | DisplayW d => DisplayLatexWidget_toDOM d
  end.

End Widgets.

(** The click listeners.  The input event carries the modifier keys; the
    listener marks it handled and, when the client has a sink, hands it
    an edit-intent event. *)
Record MouseEvent := mkMouseEvent {
  metaKey : bool;
  ctrlKey : bool;
  altKey : bool;
  defaultPrevented : bool;
  propagationStopped : bool
}.

Record ClickEvent := mkClickEvent {
  click_pos : Z;
  click_page : string;
  click_metaKey : bool;
  click_ctrlKey : bool;
  click_altKey : bool
}.

Definition run_click (l : ClickListener) (e : MouseEvent)
    : MouseEvent * option ClickEvent * list LogEntry :=
  let e' := mkMouseEvent (metaKey e) (ctrlKey e) (altKey e) true true in
  match l with
  | InlineClick this =>
      (e',
       if has_dispatchClickEvent (inline_client this)
       then Some (mkClickEvent (inline_pos this)
                               (currentPage (inline_client this))
                               (metaKey e) (ctrlKey e) (altKey e))
       else None,
       [])
  | DisplayClick this =>
      (e',
       if has_dispatchClickEvent (display_client this)
       then Some (mkClickEvent (display_pos this)
                               (currentPage (display_client this))
                               (metaKey e) (ctrlKey e) (altKey e))
       else None,
       [LogDisplayClicked (display_pos this)])
  end.

(** ** The view controller *)

(** What [update] reads of a [ViewUpdate]. *)
Record ViewUpdate := mkUpdate {
  docChanged : bool;
  viewportChanged : bool;
  selectionSet : bool;
  startState : EditorState;
  update_state : EditorState;
  update_view : EditorView
}.

(** [syntaxTree(update.startState) !== syntaxTree(update.state)]. *)
Definition treeChanged (u : ViewUpdate) : bool :=
  negb (Nat.eqb (tree_id (syntaxTree (startState u)))
                (tree_id (syntaxTree (update_state u)))).

(** A pending [setTimeout]: its id, the time it is due and what it runs. *)
Record Timer (C : Type) := mkTimer {
  timer_id : nat;
  due : nat;
  callback : C
}.
Arguments mkTimer {C} timer_id due callback.
Arguments timer_id {C} t.
Arguments due {C} t.
Arguments callback {C} t.

(** [clearTimeout(id)]; an id that is not pending is ignored. *)
Definition clearTimeout {C} (id : nat) (timers : list (Timer C)) : list (Timer C) :=
  List.filter (fun t => negb (Nat.eqb (timer_id t) id)) timers.

Definition is_due {C} (now : nat) (t : Timer C) : bool := Nat.leb (due t) now.

Inductive EventType :=
| mousedown | mousemove | mouseup | mouseleave | touchstart | touchend.

Definition EventType_eqb (a b : EventType) : bool :=
  match a, b with
  | mousedown, mousedown | mousemove, mousemove | mouseup, mouseup
  | mouseleave, mouseleave | touchstart, touchstart | touchend, touchend => true
  | _, _ => false
  end.

(** *** [latexPlugin] of [web/cm_plugins/latex.ts]

    The drag flag and the timer handle are variables of the closure; the
    listeners sit on [view.dom] and [mouseleave] is an event handler of
    the plugin spec. *)
Module ViewDrag.

(** The only function given to [setTimeout]: the one of
    [handleDragEnd]. *)
Inductive Callback := DragEnded.

Record Plugin := mkPlugin {
  isDragging : bool;
  dragEndTimeout : option nat;
  decorations : list DecoRange;
  (* the view object the closures hold, in its current state *)
  view : EditorView;
  (* the timers of the window *)
  timers : list (Timer Callback);
  nextTimer : nat;
  now : nat;
  (* calls of [view.dispatch({})] so far *)
  dispatched : nat;
  (* calls of [createLatexDecorations] so far *)
  rebuilds : nat;
  log : list LogEntry
}.

Inductive Event :=
| Dom (type : EventType) (buttons : Z)
| Update (u : ViewUpdate)
| Elapse (ms : nat).

Section WithClient.
Variable client : Client.

Definition rebuild (v : EditorView) (s : Plugin) : Plugin :=
  let '(set, logged) := createLatexDecorations v client in
  mkPlugin (isDragging s) (dragEndTimeout s) set (view s) (timers s)
           (nextTimer s) (now s) (dispatched s) (S (rebuilds s))
           (log s ++ logged).

Definition set_isDragging (b : bool) (s : Plugin) : Plugin :=
  mkPlugin b (dragEndTimeout s) (decorations s) (view s) (timers s)
           (nextTimer s) (now s) (dispatched s) (rebuilds s) (log s).

Definition handleDragEnd (s : Plugin) : Plugin :=
  let cleared :=
    match dragEndTimeout s with
    | Some id => if Nat.eqb id 0 then timers s else clearTimeout id (timers s)
    | None => timers s
    end in
  let id := nextTimer s in
  mkPlugin (isDragging s) (Some id) (decorations s) (view s)
           (cleared ++ [mkTimer id (now s + 200)%nat DragEnded])
           (S id) (now s) (dispatched s) (rebuilds s) (log s).

(** The function [handleDragEnd] hands to [setTimeout]. *)
Definition run_callback (s : Plugin) (c : Callback) : Plugin :=
  match c with
  | DragEnded =>
      mkPlugin false (dragEndTimeout s) (decorations s) (view s) (timers s)
               (nextTimer s) (now s) (S (dispatched s)) (rebuilds s)
               (log s ++ [LogMessage "Drag operation ended, updating LaTeX decorations"])
  end.

Definition constructor (v : EditorView) : Plugin :=
  rebuild v (mkPlugin false None [] v [] 1 0 0 0
                      [LogMessage "Initializing LaTeX plugin";
                       LogMessage "LaTeX plugin constructor called"]).

Definition update (s : Plugin) (u : ViewUpdate) : Plugin :=
  if isDragging s && selectionSet u && negb (docChanged u) then s
  else if docChanged u || viewportChanged u || selectionSet u || treeChanged u
  then
    let s := mkPlugin (isDragging s) (dragEndTimeout s) (decorations s)
                      (view s) (timers s) (nextTimer s) (now s)
                      (dispatched s) (rebuilds s)
                      (log s ++
                       (if selectionSet u
                        then [LogMessage "LaTeX plugin updating decorations due to selection change"]
                        else []) ++
                       [LogMessage "LaTeX plugin updating decorations"]) in
    rebuild (update_view u) s
  else s.

Definition set_view (v : EditorView) (s : Plugin) : Plugin :=
  mkPlugin (isDragging s) (dragEndTimeout s) (decorations s) v (timers s)
           (nextTimer s) (now s) (dispatched s) (rebuilds s) (log s).

(** Time passes: the timers that have become due run, oldest first. *)
Definition elapse (ms : nat) (s : Plugin) : Plugin :=
  let now' := (now s + ms)%nat in
  let fired := List.filter (is_due now') (timers s) in
  let kept := List.filter (fun t => negb (is_due now' t)) (timers s) in
  fold_left run_callback (map callback fired)
    (mkPlugin (isDragging s) (dragEndTimeout s) (decorations s) (view s)
              kept (nextTimer s) now' (dispatched s) (rebuilds s) (log s)).

Definition step (s : Plugin) (e : Event) : Plugin :=
  match e with
  | Dom mousedown _ => set_isDragging false s
  | Dom mousemove buttons =>
      if negb (buttons =? 0) then set_isDragging true s else s
  | Dom mouseup _ => if isDragging s then handleDragEnd s else s
  | Dom mouseleave _ => if isDragging s then handleDragEnd s else s
  | Dom _ _ => s
  | Update u => update (set_view (update_view u) s) u
  | Elapse ms => elapse ms s
  end.

Definition run (s : Plugin) (es : list Event) : Plugin := fold_left step es s.

End WithClient.

End ViewDrag.

(** *** [latexPlugin], the revision that listens on the document

    The drag flag is a variable of the closure; four listeners are added
    to [document] and [cleanup] removes them; every drag end calls
    [setTimeout] and keeps no handle. *)
Module DocumentDrag.

Inductive Handler :=
| handleMouseDown | handleMouseUp | handleTouchStart | handleTouchEnd.

Definition Handler_eqb (a b : Handler) : bool :=
  match a, b with
  | handleMouseDown, handleMouseDown | handleMouseUp, handleMouseUp
  | handleTouchStart, handleTouchStart | handleTouchEnd, handleTouchEnd => true
  | _, _ => false
  end.

(** The only function given to [setTimeout]: the arrow function of
    [handleMouseUp] and [handleTouchEnd]. *)
Inductive Callback := Redecorate.

Record Plugin := mkPlugin {
  isDragging : bool;
  decorations : list DecoRange;
  (* [this.cleanup] is set *)
  cleanup : bool;
  (* the view object the closures hold, in its current state *)
  view : EditorView;
  (* the view has been disposed of *)
  destroyed : bool;
  (* the listeners of [document] *)
  documentListeners : list (EventType * Handler);
  (* the timers of the window *)
  timers : list (Timer Callback);
  nextTimer : nat;
  now : nat;
  (* calls of [view.update([])] so far *)
  updatesRequested : nat;
  (* calls of [createLatexDecorations] so far, and those among them
     made after the view was disposed of *)
  rebuilds : nat;
  rebuildsAfterDestroy : nat;
  log : list LogEntry
}.

Inductive Event :=
| Document (type : EventType)
| Update (u : ViewUpdate)
| Elapse (ms : nat)
| Destroy.

(** [target.addEventListener(type, h)]: a listener already there is not
    added again. *)
Definition addEventListener (type : EventType) (h : Handler)
    (ls : list (EventType * Handler)) : list (EventType * Handler) :=
  if existsb (fun '(t, g) => EventType_eqb t type && Handler_eqb g h) ls
  then ls else ls ++ [(type, h)].

Definition removeEventListener (type : EventType) (h : Handler)
    (ls : list (EventType * Handler)) : list (EventType * Handler) :=
  List.filter (fun '(t, g) => negb (EventType_eqb t type && Handler_eqb g h)) ls.

(** The four listeners of the constructor, in the order it adds them. *)
Definition installed : list (EventType * Handler) :=
  [(mousedown, handleMouseDown); (mouseup, handleMouseUp);
   (touchstart, handleTouchStart); (touchend, handleTouchEnd)].

Section WithClient.
Variable client : Client.

Definition rebuild (v : EditorView) (s : Plugin) : Plugin :=
  let '(set, logged) := createLatexDecorations v client in
  mkPlugin (isDragging s) set (cleanup s) (view s) (destroyed s)
           (documentListeners s) (timers s) (nextTimer s) (now s)
           (updatesRequested s) (S (rebuilds s))
           (if destroyed s then S (rebuildsAfterDestroy s)
            else rebuildsAfterDestroy s)
           (log s ++ logged).

Definition set_isDragging (b : bool) (s : Plugin) : Plugin :=
  mkPlugin b (decorations s) (cleanup s) (view s) (destroyed s)
           (documentListeners s) (timers s) (nextTimer s) (now s)
           (updatesRequested s) (rebuilds s) (rebuildsAfterDestroy s) (log s).

(** [setTimeout(() => {...}, 50)]. *)
Definition setTimeout_50 (s : Plugin) : Plugin :=
  mkPlugin (isDragging s) (decorations s) (cleanup s) (view s) (destroyed s)
           (documentListeners s)
           (timers s ++ [mkTimer (nextTimer s) (now s + 50)%nat Redecorate])
           (S (nextTimer s)) (now s)
           (updatesRequested s) (rebuilds s) (rebuildsAfterDestroy s) (log s).

Definition run_handler (s : Plugin) (h : Handler) : Plugin :=
  match h with
  | handleMouseDown => set_isDragging true s
  | handleMouseUp =>
      if isDragging s then setTimeout_50 (set_isDragging false s) else s
  | handleTouchStart => set_isDragging true s
  | handleTouchEnd =>
      if isDragging s then setTimeout_50 (set_isDragging false s) else s
  end.

(** The arrow function given to [setTimeout]. *)
Definition run_callback (s : Plugin) (c : Callback) : Plugin :=
  match c with
  | Redecorate =>
      let s := rebuild (view s) s in
      mkPlugin (isDragging s) (decorations s) (cleanup s) (view s)
               (destroyed s) (documentListeners s) (timers s) (nextTimer s)
               (now s) (S (updatesRequested s)) (rebuilds s)
               (rebuildsAfterDestroy s) (log s)
  end.

Definition set_listeners (ls : list (EventType * Handler)) (s : Plugin) : Plugin :=
  mkPlugin (isDragging s) (decorations s) (cleanup s) (view s) (destroyed s)
           ls (timers s) (nextTimer s) (now s)
           (updatesRequested s) (rebuilds s) (rebuildsAfterDestroy s) (log s).

Definition constructor (v : EditorView) : Plugin :=
  let s := rebuild v (mkPlugin false [] false v false [] [] 1 0 0 0 0
                        [LogMessage "Initializing LaTeX plugin";
                         LogMessage "LaTeX plugin constructor called"]) in
  let ls := addEventListener touchend handleTouchEnd
              (addEventListener touchstart handleTouchStart
                (addEventListener mouseup handleMouseUp
                  (addEventListener mousedown handleMouseDown
                    (documentListeners s)))) in
  mkPlugin (isDragging s) (decorations s) true (view s) (destroyed s)
           ls (timers s) (nextTimer s) (now s)
           (updatesRequested s) (rebuilds s) (rebuildsAfterDestroy s) (log s).

(** [this.cleanup]. *)
Definition run_cleanup (s : Plugin) : Plugin :=
  set_listeners
    (removeEventListener touchend handleTouchEnd
      (removeEventListener touchstart handleTouchStart
        (removeEventListener mouseup handleMouseUp
          (removeEventListener mousedown handleMouseDown
            (documentListeners s))))) s.

(** [destroy], called by the substrate when it disposes of the view. *)
Definition destroy (s : Plugin) : Plugin :=
  let s := mkPlugin (isDragging s) (decorations s) (cleanup s) (view s) true
                    (documentListeners s) (timers s) (nextTimer s) (now s)
                    (updatesRequested s) (rebuilds s)
                    (rebuildsAfterDestroy s) (log s) in
  if cleanup s then run_cleanup s else s.

Definition update (s : Plugin) (u : ViewUpdate) : Plugin :=
  if docChanged u || viewportChanged u
     || (selectionSet u && negb (isDragging s)) || treeChanged u
  then
    let s := mkPlugin (isDragging s) (decorations s) (cleanup s) (view s)
                      (destroyed s) (documentListeners s) (timers s)
                      (nextTimer s) (now s) (updatesRequested s)
                      (rebuilds s) (rebuildsAfterDestroy s)
                      (log s ++
                       (if selectionSet u && negb (isDragging s)
                        then [LogMessage "LaTeX plugin updating decorations due to selection change (not dragging)"]
                        else []) ++
                       [LogMessage "LaTeX plugin updating decorations"]) in
    rebuild (update_view u) s
  else s.

Definition set_view (v : EditorView) (s : Plugin) : Plugin :=
  mkPlugin (isDragging s) (decorations s) (cleanup s) v (destroyed s)
           (documentListeners s) (timers s) (nextTimer s) (now s)
           (updatesRequested s) (rebuilds s) (rebuildsAfterDestroy s) (log s).

(** Time passes: the timers that have become due run, oldest first. *)
Definition elapse (ms : nat) (s : Plugin) : Plugin :=
  let now' := (now s + ms)%nat in
  let fired := List.filter (is_due now') (timers s) in
  let kept := List.filter (fun t => negb (is_due now' t)) (timers s) in
  fold_left run_callback (map callback fired)
    (mkPlugin (isDragging s) (decorations s) (cleanup s) (view s)
              (destroyed s) (documentListeners s) kept (nextTimer s) now'
              (updatesRequested s) (rebuilds s) (rebuildsAfterDestroy s)
              (log s)).

(** An event on the document runs the listeners registered for its
    type, in the order they were added. *)
Definition dispatchEvent (type : EventType) (s : Plugin) : Plugin :=
  fold_left run_handler
    (map snd (List.filter (fun '(t, _) => EventType_eqb t type)
                     (documentListeners s)))
    s.

Definition step (s : Plugin) (e : Event) : Plugin :=
  match e with
  | Document type => dispatchEvent type s
  | Update u => update (set_view (update_view u) s) u
  | Elapse ms => elapse ms s
  | Destroy => destroy s
  end.

Definition run (s : Plugin) (es : list Event) : Plugin := fold_left step es s.

End WithClient.

End DocumentDrag.

(** ** Notions used in the statements *)

(** The decorations the [enter] callback pushes for one node. *)
Definition decorations_of (view : EditorView) (client : Client)
    (node : SyntaxNode) : list DecoRange :=
  widgets (enter view client new_builder node).

(** What [enter] writes to the console for one node. *)
Definition logged_for (view : EditorView) (client : Client)
    (node : SyntaxNode) : list LogEntry :=
  console (enter view client new_builder node).

(** The nodes [createLatexDecorations] enters, in the order it enters
    them. *)
Definition visited (view : EditorView) : list SyntaxNode :=
  flat_map (fun '(from, to) => iterate (syntaxTree (state view)) from to)
           (visibleRanges view).

(** The guard of both branches of [enter] is
    [!isCursorInside && !isInSelection]; this is its negation. *)
Definition touched (view : EditorView) (nodeFrom nodeTo : Z) : bool :=
  isCursorInside (head (main (selection (state view)))) nodeFrom nodeTo
  || fst (isNodeInSelection (ranges (selection (state view))) nodeFrom nodeTo).

(** Liveness as the specification words it: the cursor offset lies in
    [from, to], both ends included, or some selection range overlaps the
    half-open span. *)
Definition live (sel : EditorSelection) (from to : Z) : Prop :=
  (from <= head (main sel) <= to)
  \/ exists r, In r (ranges sel) /\ range_from r < to /\ range_to r > from.

(** The text of a node, [sliceString(nodeFrom, nodeTo)]. *)
Definition node_text (view : EditorView) (node : SyntaxNode) : string :=
  sliceString (doc (state view)) (node_from node) (node_to node).

(** The replace decoration of an inline span and of a display span. *)
Definition inline_decoration (client : Client) (from to : Z) (formula : string)
    : DecoRange :=
  mkDecoRange from to
    (mkReplace (InlineW (mkInline formula client (from + 1))) true None).

Definition display_decoration (client : Client) (from to : Z) (formula : string)
    : DecoRange :=
  mkDecoRange from to
    (mkReplace (DisplayW (mkDisplay formula client (from + 2))) true (Some false)).

(** At most one timer is pending, and then [dragEndTimeout] holds its
    id: the invariant of the controller of [latex.ts]. *)
Definition single_timer (s : ViewDrag.Plugin) : Prop :=
  (1 <= ViewDrag.nextTimer s)%nat
  /\ (ViewDrag.timers s = []
      \/ exists t, ViewDrag.timers s = [t]
                   /\ ViewDrag.dragEndTimeout s = Some (timer_id t)
                   /\ timer_id t <> 0%nat).

(** The listeners of the document revision are all there or all gone,
    and [cleanup] is set. *)
Definition listeners_ok (s : DocumentDrag.Plugin) : Prop :=
  DocumentDrag.cleanup s = true
  /\ (DocumentDrag.documentListeners s = DocumentDrag.installed
      \/ DocumentDrag.documentListeners s = []).

(** ** Sample data *)

Definition sample_client : Client := mkClient "index" true.

Definition newline : string := String (ascii_of_nat 10) EmptyString.

Definition euler_doc : string := "Euler's identity: $e^{i\pi}+1=0$.".

(** The sample sentence with the cursor at [cursor]; the parser's inline
    node runs from the opening to past the closing dollar. *)
Definition euler_view (cursor : Z) : EditorView :=
  mkView (mkState euler_doc
                  (mkSelection [mkRange cursor cursor] 0)
                  (mkTree 0 [mkNode "Paragraph" 0 33; mkNode "InlineLatex" 18 32]))
         [(0, 33)].

Definition euler_node : SyntaxNode := mkNode "InlineLatex" 18 32.

Definition block_doc : string :=
  "$$" +:+ newline +:+ "\int_0^1 x\,dx" +:+ newline +:+ "$$".

Definition block_formula : string :=
  newline +:+ "\int_0^1 x\,dx" +:+ newline.

(** A paragraph, then the block; the cursor is at the document start. *)
Definition block_view : EditorView :=
  mkView (mkState ("Area:" +:+ newline +:+ block_doc)
                  (mkSelection [mkRange 0 0] 0)
                  (mkTree 0 [mkNode "Paragraph" 0 5; mkNode "DisplayLatex" 6 26]))
         [(0, 26)].

Definition block_node : SyntaxNode := mkNode "DisplayLatex" 6 26.

(** A display node whose text has lost a closing dollar. *)
Definition broken_view : EditorView :=
  mkView (mkState "ab $$x$"
                  (mkSelection [mkRange 0 0] 0)
                  (mkTree 0 [mkNode "DisplayLatex" 3 7]))
         [(0, 7)].

Definition broken_node : SyntaxNode := mkNode "DisplayLatex" 3 7.

(** The sample sentence with the primary cursor at the start and a
    second, empty range at [p]. *)
Definition two_cursor_view (p : Z) : EditorView :=
  mkView (mkState euler_doc
                  (mkSelection [mkRange 0 0; mkRange p p] 0)
                  (mkTree 0 [mkNode "Paragraph" 0 33; mkNode "InlineLatex" 18 32]))
         [(0, 33)].

(** A typesetter that gives up on unbalanced braces: it empties the
    target, leaves what it had typeset so far, and throws. *)
Fixpoint braces_balanced (s : string) (depth : nat) : bool :=
  match s with
  | EmptyString => Nat.eqb depth 0
  | String c rest =>
      if Ascii.eqb c "{" then braces_balanced rest (S depth)
      else if Ascii.eqb c "}" then
        match depth with
        | O => false
        | S d => braces_balanced rest d
        end
      else braces_balanced rest depth
  end.

Definition strict_katex (formula : string) (displayMode : bool)
    (kids : list DomNode) : list DomNode * option string :=
  if braces_balanced formula 0 then ([Typeset formula], None)
  else ([Typeset "<span class=katex>"], Some "ParseError").

Definition empty_world : World := mkWorld [] [].

(** A press and a release, twice in a row. *)
Definition two_clicks : list DocumentDrag.Event :=
  [DocumentDrag.Document mousedown; DocumentDrag.Document mouseup;
   DocumentDrag.Document mousedown; DocumentDrag.Document mouseup].

(** A press and a release, then the view is disposed of, then the delay
    passes. *)
Definition click_then_destroy : list DocumentDrag.Event :=
  [DocumentDrag.Document mousedown; DocumentDrag.Document mouseup;
   DocumentDrag.Destroy; DocumentDrag.Elapse 50].

(** The controllers of the sample sentence in the middle of a drag. *)
Definition document_dragging : DocumentDrag.Plugin :=
  DocumentDrag.run sample_client
    (DocumentDrag.constructor sample_client (euler_view 0))
    [DocumentDrag.Document mousedown].

Definition view_dragging : ViewDrag.Plugin :=
  ViewDrag.run sample_client
    (ViewDrag.constructor sample_client (euler_view 0))
    [ViewDrag.Dom mousemove 1].

(** An update in which only the selection changed. *)
Definition selection_update (v : EditorView) : ViewUpdate :=
  mkUpdate false false true (state v) (state v) v.

(** ** Clicking a rendered widget *)

(** The client a widget was created with. *)
Definition widget_client (w : WidgetType) : Client :=
  match w with
  | InlineW i => inline_client i
  | DisplayW d => display_client d
  end.

(** The [displayMode] option [toDOM] passes to the typesetter. *)
Definition widget_displayMode (w : WidgetType) : bool :=
  match w with
  | InlineW _ => false
  | DisplayW _ => true
  end.

(** The text [toDOM] puts in the wrapper when the typesetter throws. *)
Definition raw_text (w : WidgetType) : string :=
  match w with
  | InlineW i => "$" +:+ inline_formula i +:+ "$"
  | DisplayW d => "$$" +:+ display_formula d +:+ "$$"
  end.

(** A click event delivered to an element: its click listeners run in
    the order they were added, on the same event object.  The result is
    the event as they leave it, the edit-intent events handed to the
    client, and what was logged. *)
Definition click (w : World) (target : nat) (e : MouseEvent)
    : MouseEvent * list ClickEvent * list LogEntry :=
  match heap w !! target with
  | None => (e, [], [])
  | Some element =>
      fold_left
        (fun '(ev, sent, logged) l =>
           let '(ev', out, lg) := run_click l ev in
           (ev',
            sent ++ match out with Some c => [c] | None => [] end,
            logged ++ lg))
        (clickListeners element) (e, [], [])
  end.

(** ** Counting what the builder logs *)

Definition is_inline (d : DecoRange) : bool :=
  match widget (deco d) with InlineW _ => true | DisplayW _ => false end.

Definition is_display (d : DecoRange) : bool :=
  match widget (deco d) with InlineW _ => false | DisplayW _ => true end.

Definition is_failure (l : LogEntry) : bool :=
  match l with ErrFailedToExtract _ => true | _ => false end.

(** ** The editor: completion sources *)

(** What the editor writes to the console. *)
Inductive ConsoleEntry :=
| ConsoleLog (args : list string)
| ConsoleError (args : list string).

Section Completer.

(** A completion result; a source that has nothing to offer answers with
    a falsy value, [None] here. *)
Variable CompletionResult : Type.

(** The loop of [completer] over the answers to [page:complete];
    [actualResult] is the variable of that name. *)
Fixpoint completer_loop (results : list (option CompletionResult))
    (actualResult : option CompletionResult)
    : option CompletionResult * list ConsoleEntry :=
  match results with
  | [] => (actualResult, [])
  | result :: rest =>
      match result with
      | Some r =>
          match actualResult with
          | Some _ =>
              (None,
               [ConsoleError
                  ["Got completion results from multiple sources, cannot deal with that"]])
          | None => completer_loop rest (Some r)
          end
      | None => completer_loop rest actualResult
      end
  end.

(** [completer], from the answers on. *)
Definition completer (results : list (option CompletionResult))
    : option CompletionResult * list ConsoleEntry :=
  completer_loop results None.

(** The answers that are truthy, in order. *)
Definition offers (results : list (option CompletionResult))
    : list CompletionResult :=
  flat_map (fun r => match r with Some x => [x] | None => [] end) results.

End Completer.

(** ** The editor: the state of open pages *)

Module PageStates.

Record PageState := mkPageState {
  page_scrollTop : Z;
  page_selection : EditorSelection
}.

(** The fields [saveState] and [restoreState] touch.  The key of
    [openPages] is [this.currentPage], which may be undefined. *)
Record Editor := mkEditor {
  openPages : gmap (option string) PageState;
  (* this.viewState.currentPage *)
  currentPage : option string;
  (* editorView.scrollDOM.scrollTop *)
  scrollTop : Z;
  (* editorView.state.selection *)
  view_selection : EditorSelection;
  (* the selections passed to editorView.dispatch so far *)
  dispatched : list EditorSelection;
  (* calls of editorView.focus so far *)
  focused : nat
}.

Definition saveState (ed : Editor) : Editor :=
  mkEditor
    (<[currentPage ed := mkPageState (scrollTop ed) (view_selection ed)]>
       (openPages ed))
    (currentPage ed) (scrollTop ed) (view_selection ed) (dispatched ed)
    (focused ed).

Definition restoreState (pageName : string) (ed : Editor) : Editor :=
  match openPages ed !! Some pageName with
  | Some pageState =>
      mkEditor (openPages ed) (currentPage ed) (page_scrollTop pageState)
               (view_selection ed)
               (dispatched ed ++ [page_selection pageState])
               (S (focused ed))
  | None =>
      mkEditor (openPages ed) (currentPage ed) (scrollTop ed)
               (view_selection ed) (dispatched ed) (S (focused ed))
  end.

(** What happens to an editor between two visits of a page: the view
    state names another page, the user scrolls or selects, states are
    saved and restored. *)
Inductive Op :=
| Navigate (page : option string)
| Scroll (top : Z)
| Select (sel : EditorSelection)
| SaveState
| RestoreState (pageName : string).

Definition step (ed : Editor) (op : Op) : Editor :=
  match op with
  | Navigate page =>
      mkEditor (openPages ed) page (scrollTop ed) (view_selection ed)
               (dispatched ed) (focused ed)
  | Scroll top =>
      mkEditor (openPages ed) (currentPage ed) top (view_selection ed)
               (dispatched ed) (focused ed)
  | Select sel =>
      mkEditor (openPages ed) (currentPage ed) (scrollTop ed) sel
               (dispatched ed) (focused ed)
  | SaveState => saveState ed
  | RestoreState pageName => restoreState pageName ed
  end.

Definition run (ed : Editor) (ops : list Op) : Editor := fold_left step ops ed.

(** No state is saved for [page] in the course of [ops]. *)
Fixpoint no_save_on (page : string) (ed : Editor) (ops : list Op) : Prop :=
  match ops with
  | [] => True
  | op :: rest =>
      (op = SaveState -> currentPage ed <> Some page)
      /\ no_save_on page (step ed op) rest
  end.

End PageStates.

(** ** The editor: saving *)

Module EditorSave.

Definition saveInterval : nat := 1000.

(** How a promise returned by [save] was settled. *)
Inductive Settlement :=
| Resolved
| Rejected (reason : string).

(** A call of [space.writePage] that has not been answered yet; it
    belongs to the [save] whose promise is [write_promise]. *)
Record WriteRequest := mkWrite {
  write_promise : nat;
  write_page : string;
  write_text : string
}.

(** The function [save] gives to [setTimeout]; it closes over the
    [resolve] and [reject] of the promise of that call. *)
Inductive Callback := SaveNow (promise : nat).

Definition callback_promise (c : Callback) : nat :=
  match c with SaveNow p => p end.

Record Editor := mkEditor {
  (* this.viewState.unsavedChanges and this.viewState.currentPage *)
  unsavedChanges : bool;
  currentPage : option string;
  (* this.editorView.state.sliceDoc(0) *)
  docText : string;
  saveTimeout : option nat;
  (* the timers of the window *)
  timers : list (Timer Callback);
  nextTimer : nat;
  now : nat;
  (* the promises made so far are those below [nextPromise] *)
  nextPromise : nat;
  settled : list (nat * Settlement);
  writes : list WriteRequest;
  (* calls of viewDispatch({type: "page-saved"}) so far *)
  pageSaved : nat;
  log : list ConsoleEntry
}.

Inductive Event :=
| Save (immediate : bool)
| Elapse (ms : nat)
(* the promise of a writePage call is fulfilled ([None]) or rejected *)
| WriteAnswered (promise : nat) (failure : option string)
(* a render assigns this.viewState *)
| ViewState (unsaved : bool) (page : option string)
| DocChanged (text : string)
(* [clearTimeout(this.saveTimeout)], as [reloadPage] does *)
| ClearSaveTimeout.

(** A string is truthy when it is there and not empty. *)
Definition truthy (s : option string) : bool :=
  match s with
  | Some p => negb (str_eqb p "")
  | None => false
  end.

Definition settle (p : nat) (how : Settlement) (s : Editor) : Editor :=
  mkEditor (unsavedChanges s) (currentPage s) (docText s) (saveTimeout s)
           (timers s) (nextTimer s) (now s) (nextPromise s)
           (settled s ++ [(p, how)]) (writes s) (pageSaved s) (log s).

(** [save(immediate)]: the promise it returns is [nextPromise]. *)
Definition save (immediate : bool) (s : Editor) : Editor :=
  let p := nextPromise s in
  let s := mkEditor (unsavedChanges s) (currentPage s) (docText s)
                    (saveTimeout s) (timers s) (nextTimer s) (now s) (S p)
                    (settled s) (writes s) (pageSaved s) (log s) in
  if negb (unsavedChanges s) then settle p Resolved s
  else
    let cleared :=
      match saveTimeout s with
      | Some id => if Nat.eqb id 0 then timers s else clearTimeout id (timers s)
      | None => timers s
      end in
    let id := nextTimer s in
    mkEditor (unsavedChanges s) (currentPage s) (docText s) (Some id)
             (cleared ++ [mkTimer id
                            (now s + (if immediate then 0 else saveInterval))%nat
                            (SaveNow p)])
             (S id) (now s) (nextPromise s) (settled s) (writes s)
             (pageSaved s) (log s).

(** The function given to [setTimeout]. *)
Definition run_callback (s : Editor) (c : Callback) : Editor :=
  match c with
  | SaveNow p =>
      if truthy (currentPage s) then
        let page := default "" (currentPage s) in
        mkEditor (unsavedChanges s) (currentPage s) (docText s) (saveTimeout s)
                 (timers s) (nextTimer s) (now s) (nextPromise s) (settled s)
                 (writes s ++ [mkWrite p page (docText s)])
                 (pageSaved s)
                 (log s ++ [ConsoleLog ["Saving page"; page]])
      else settle p Resolved s
  end.

(** The answer to a [writePage] call: [then] dispatches [page-saved] and
    resolves, [catch] rejects. *)
Definition answer (p : nat) (failure : option string) (s : Editor) : Editor :=
  if existsb (fun w => Nat.eqb (write_promise w) p) (writes s) then
    let remaining :=
      List.filter (fun w => negb (Nat.eqb (write_promise w) p)) (writes s) in
    match failure with
    | None =>
        mkEditor (unsavedChanges s) (currentPage s) (docText s) (saveTimeout s)
                 (timers s) (nextTimer s) (now s) (nextPromise s)
                 (settled s ++ [(p, Resolved)]) remaining
                 (S (pageSaved s)) (log s)
    | Some reason =>
        mkEditor (unsavedChanges s) (currentPage s) (docText s) (saveTimeout s)
                 (timers s) (nextTimer s) (now s) (nextPromise s)
                 (settled s ++ [(p, Rejected reason)]) remaining
                 (pageSaved s) (log s)
    end
  else s.

(** Time passes: the timers that have become due run, oldest first. *)
Definition elapse (ms : nat) (s : Editor) : Editor :=
  let now' := (now s + ms)%nat in
  let fired := List.filter (is_due now') (timers s) in
  let kept := List.filter (fun t => negb (is_due now' t)) (timers s) in
  fold_left run_callback (map callback fired)
    (mkEditor (unsavedChanges s) (currentPage s) (docText s) (saveTimeout s)
              kept (nextTimer s) now' (nextPromise s) (settled s) (writes s)
              (pageSaved s) (log s)).

Definition step (s : Editor) (e : Event) : Editor :=
  match e with
  | Save immediate => save immediate s
  | Elapse ms => elapse ms s
  | WriteAnswered p failure => answer p failure s
  | ViewState unsaved page =>
      mkEditor unsaved page (docText s) (saveTimeout s) (timers s)
               (nextTimer s) (now s) (nextPromise s) (settled s) (writes s)
               (pageSaved s) (log s)
  | DocChanged text =>
      mkEditor (unsavedChanges s) (currentPage s) text (saveTimeout s)
               (timers s) (nextTimer s) (now s) (nextPromise s) (settled s)
               (writes s) (pageSaved s) (log s)
  | ClearSaveTimeout =>
      match saveTimeout s with
      | Some id =>
          mkEditor (unsavedChanges s) (currentPage s) (docText s)
                   (saveTimeout s) (clearTimeout id (timers s)) (nextTimer s)
                   (now s) (nextPromise s) (settled s) (writes s)
                   (pageSaved s) (log s)
      | None => s
      end
  end.

Definition run (s : Editor) (es : list Event) : Editor := fold_left step es s.

(** A new editor: nothing saved, nothing pending. *)
Definition new_editor (page : option string) (text : string) : Editor :=
  mkEditor false page text None [] 1 0 0 [] [] 0 [].

(** The promises that have a timer, a write in flight, or a settlement. *)
Definition timer_promises (s : Editor) : list nat :=
  map (fun t => callback_promise (callback t)) (timers s).

Definition write_promises (s : Editor) : list nat :=
  map write_promise (writes s).

Definition settled_promises (s : Editor) : list nat :=
  map fst (settled s).

(** The state of a reachable editor: at most one timer, whose id
    [saveTimeout] holds; every promise is below [nextPromise]; a promise
    is in at most one of the three places. *)
Definition well_formed (s : Editor) : Prop :=
  (1 <= nextTimer s)%nat
  /\ (timers s = []
      \/ exists t, timers s = [t] /\ saveTimeout s = Some (timer_id t)
                   /\ timer_id t <> 0%nat)
  /\ (forall p, In p (timer_promises s) \/ In p (write_promises s)
                \/ In p (settled_promises s) -> (p < nextPromise s)%nat)
  /\ (forall p, In p (timer_promises s) ->
                ~ In p (write_promises s) /\ ~ In p (settled_promises s)).

(** A promise that was made and that nothing holds any more. *)
Definition abandoned (p : nat) (s : Editor) : Prop :=
  (p < nextPromise s)%nat
  /\ ~ In p (timer_promises s)
  /\ ~ In p (write_promises s)
  /\ ~ In p (settled_promises s).

End EditorSave.

(** Every timer of the document revision is due within 50 ms, and
    every timer ever set has run or is pending. *)
Definition timers_accounted (s : DocumentDrag.Plugin) : Prop :=
  DocumentDrag.nextTimer s =
  S (DocumentDrag.updatesRequested s + length (DocumentDrag.timers s))
  /\ (S (DocumentDrag.updatesRequested s) <= DocumentDrag.rebuilds s)%nat
  /\ (forall t, In t (DocumentDrag.timers s) ->
                (due t <= DocumentDrag.now s + 50)%nat).

(** The two counters of the builder: the first counts the inline
    widgets pushed, the second the display widgets pushed and the
    display nodes given up on. *)
Definition counts_agree (b : Builder) : Prop :=
  inlineCount b = length (List.filter is_inline (widgets b))
  /\ displayCount b =
     (length (List.filter is_display (widgets b))
      + length (List.filter is_failure (console b)))%nat.

(** The sample sentence seen through two visible ranges that both touch
    the formula. *)
Definition split_view : EditorView :=
  mkView (state (euler_view 0)) [(0, 20); (25, 33)].

(** A document whose only formula has an unbalanced brace. *)
Definition unbalanced_view : EditorView :=
  mkView (mkState "x $\frac{1$"
                  (mkSelection [mkRange 0 0] 0)
                  (mkTree 0 [mkNode "InlineLatex" 2 11]))
         [(0, 11)].

Definition unbalanced_node : SyntaxNode := mkNode "InlineLatex" 2 11.

(** An editor on the page [index], scrolled down, and a visit to another
    page and back. *)
Definition sample_pages : PageStates.Editor :=
  PageStates.mkEditor ∅ (Some "index") 120 (mkSelection [mkRange 5 5] 0) [] 0.

Definition visit_elsewhere : list PageStates.Op :=
  [PageStates.Navigate (Some "other"); PageStates.Scroll 0;
   PageStates.Select (mkSelection [mkRange 0 0] 0); PageStates.SaveState;
   PageStates.Navigate (Some "index")].

(** An editor with unsaved changes, and the same with a save waiting for
    its timer. *)
Definition dirty_editor : EditorSave.Editor :=
  EditorSave.run (EditorSave.new_editor (Some "index") "hello")
    [EditorSave.ViewState true (Some "index")].

Definition waiting_editor : EditorSave.Editor :=
  EditorSave.run (EditorSave.new_editor (Some "index") "hello")
    [EditorSave.ViewState true (Some "index"); EditorSave.Save false].



(** A typesetter that does what the options of the call ask for: with
    [throwOnError: false] a formula it cannot parse is typeset as an
    error node in the error colour of the call, and nothing is thrown. *)
Definition lenient_katex (formula : string) (displayMode : bool)
    (kids : list DomNode) : list DomNode * option string :=
  if braces_balanced formula 0 then ([Typeset formula], None)
  else ([Typeset ("<span class=katex-error style=color:#f44336>"
                  +:+ formula +:+ "</span>")], None).

(** * Properties *)

(** ** Strings and the display pattern *)

Lemma append_cons (x : ascii) (a b : string) :
  String x a +:+ b = String x (a +:+ b).
Proof. reflexivity. Qed.

Lemma append_empty_l (a : string) : "" +:+ a = a.
Proof. reflexivity. Qed.

Lemma append_assoc (a b c : string) : (a +:+ b) +:+ c = a +:+ (b +:+ c).
Proof.
  induction a as [|x a IH]; [reflexivity|].
  now rewrite !append_cons, IH.
Qed.

Lemma append_empty_r (a : string) : a +:+ "" = a.
Proof.
  induction a as [|x a IH]; [reflexivity|]. now rewrite append_cons, IH.
Qed.

Lemma length_append (a b : string) :
  String.length (a +:+ b) = (String.length a + String.length b)%nat.
Proof.
  induction a as [|x a IH]; [reflexivity|].
  rewrite append_cons. simpl. now rewrite IH.
Qed.

Lemma substring_length_le (s : string) (n m : nat) :
  (String.length (String.substring n m s) <= m)%nat.
Proof.
  revert n m. induction s as [|c s IH]; intros n m.
  - destruct n, m; simpl; lia.
  - destruct n as [|n]; simpl.
    + destruct m as [|m]; simpl; [lia|]. specialize (IH 0%nat m). lia.
    + apply IH.
Qed.

(** A slice is never longer than the range asked for. *)
Lemma sliceString_length (d : string) (from to : Z) :
  Z.of_nat (String.length (sliceString d from to)) <= Z.max 0 (to - from).
Proof.
  unfold sliceString.
  set (len := Z.of_nat (String.length d)).
  set (from' := Z.max 0 (Z.min len from)).
  set (to' := Z.max from' (Z.min len to)).
  pose proof (substring_length_le d (Z.to_nat from') (Z.to_nat (to' - from'))) as H.
  assert (0 <= len) by (unfold len; lia).
  assert (to' - from' <= Z.max 0 (to - from)) by (unfold to', from'; lia).
  lia.
Qed.

Lemma lazy_group_cons (c : ascii) (rest acc : string) :
  lazy_group (String c rest) acc =
  if str_eqb (String c rest) "$$" then Some acc
  else lazy_group rest (acc +:+ String c "").
Proof. reflexivity. Qed.

Lemma append_dollars_eq (g : string) : g +:+ "$$" = "$$" -> g = "".
Proof.
  intros H. apply (f_equal String.length) in H.
  rewrite length_append in H. destruct g; [reflexivity | simpl in H; lia].
Qed.

(** The lazy loop stops exactly at the closing pair that ends the input:
    what it returns is everything before that pair. *)
Lemma lazy_group_spec (rest acc f : string) :
  lazy_group rest acc = Some f <->
  exists g, rest = g +:+ "$$" /\ f = acc +:+ g.
Proof.
  revert acc. induction rest as [|c rest IH]; intros acc.
  - simpl. split; [discriminate|].
    intros (g & Hg & _). apply (f_equal String.length) in Hg.
    rewrite length_append in Hg. simpl in Hg. lia.
  - rewrite lazy_group_cons. unfold str_eqb.
    destruct (String.eqb_spec (String c rest) "$$") as [E|NE].
    + split.
      * intros [= <-]. exists "". rewrite append_empty_r. now rewrite E.
      * intros (g & Hg & ->). rewrite E in Hg. symmetry in Hg.
        apply append_dollars_eq in Hg. subst g. now rewrite append_empty_r.
    + rewrite IH. split.
      * intros (g & -> & ->). exists (String c g). split; [reflexivity|].
        now rewrite append_assoc.
      * intros (g & Hg & ->). destruct g as [|c' g].
        { rewrite append_empty_l in Hg. congruence. }
        rewrite append_cons in Hg. injection Hg as <- ->.
        exists g. split; [reflexivity|]. now rewrite append_assoc.
Qed.

(** The pattern accepts exactly the strings made of two dollars, any
    text, two dollars; the group is the text in between. *)
Lemma display_regex_exec_spec (text f : string) :
  display_regex_exec text = Some f <-> text = "$$" +:+ f +:+ "$$".
Proof.
  change ("$$" +:+ f +:+ "$$") with (String "$" (String "$" (f +:+ "$$"))).
  unfold display_regex_exec.
  destruct text as [|c1 [|c2 rest]].
  - split; discriminate.
  - split; discriminate.
  - destruct (Ascii.eqb_spec c1 "$") as [->|N1]; simpl.
    + destruct (Ascii.eqb_spec c2 "$") as [->|N2]; simpl.
      * rewrite lazy_group_spec. split.
        -- intros (g & -> & ->). reflexivity.
        -- intros [= ->]. exists f. split; reflexivity.
      * split; [discriminate|]. intros [= H _]. congruence.
    + split; [discriminate|]. intros [= H _]. congruence.
Qed.

Lemma display_regex_exec_length (text f : string) :
  display_regex_exec text = Some f -> (4 <= String.length text)%nat.
Proof.
  intros H. apply display_regex_exec_spec in H. subst text.
  rewrite !length_append. simpl. lia.
Qed.

(** ** The liveness test *)

Lemma isNodeInSelection_true (sels : list SelectionRange) (from to : Z) :
  fst (isNodeInSelection sels from to) = true <->
  exists r, In r sels /\ range_from r < to /\ range_to r > from.
Proof.
  induction sels as [|r sels IH]; simpl.
  - split; [discriminate | intros (r & [] & _)].
  - destruct (range_from r <? to) eqn:E1; simpl.
    + destruct (range_to r >? from) eqn:E2; simpl.
      * split; [|reflexivity]. intros _. exists r.
        apply Z.ltb_lt in E1. apply Z.gtb_lt in E2. split; [now left | lia].
      * rewrite IH. split.
        -- intros (x & Hin & Hx). exists x. split; [now right | exact Hx].
        -- intros (x & [<-|Hin] & Hx).
           ++ assert (from < range_to r) as H by lia.
              apply Z.gtb_lt in H. congruence.
           ++ exists x. split; assumption.
    + rewrite IH. split.
      * intros (x & Hin & Hx). exists x. split; [now right | exact Hx].
      * intros (x & [<-|Hin] & Hx).
        -- apply Z.ltb_ge in E1. lia.
        -- exists x. split; assumption.
Qed.

(** When no range overlaps, the helper logs nothing. *)
Lemma isNodeInSelection_false_log (sels : list SelectionRange) (from to : Z) :
  fst (isNodeInSelection sels from to) = false ->
  snd (isNodeInSelection sels from to) = [].
Proof.
  induction sels as [|r sels IH]; simpl; [reflexivity|].
  destruct ((range_from r <? to) && (range_to r >? from)); simpl;
    [discriminate | exact IH].
Qed.

Lemma isCursorInside_true (c from to : Z) :
  isCursorInside c from to = true <-> from <= c <= to.
Proof.
  unfold isCursorInside. rewrite andb_true_iff, Z.geb_le, Z.leb_le. lia.
Qed.

(** The builder's guard is the specified liveness test. *)
Lemma touched_live (view : EditorView) (from to : Z) :
  touched view from to = true <-> live (selection (state view)) from to.
Proof.
  unfold touched, live.
  rewrite orb_true_iff, isCursorInside_true, isNodeInSelection_true.
  reflexivity.
Qed.

Lemma touched_not_live (view : EditorView) (from to : Z) :
  touched view from to = false <-> ~ live (selection (state view)) from to.
Proof.
  rewrite <- touched_live. destruct (touched view from to); split;
    congruence || (intros H; exfalso; now apply H).
Qed.

(** ** What [enter] does with one node *)

Lemma decorations_of_inline (view : EditorView) (client : Client)
    (node : SyntaxNode) :
  name node = "InlineLatex" ->
  decorations_of view client node =
  if touched view (node_from node) (node_to node) then []
  else [inline_decoration client (node_from node) (node_to node)
          (sliceString (doc (state view)) (node_from node + 1) (node_to node - 1))].
Proof.
  intros Hname. unfold decorations_of, enter, touched. rewrite Hname.
  change (str_eqb "InlineLatex" "InlineLatex") with true. cbv iota.
  destruct (isNodeInSelection _ _ _) as [sel logged].
  destruct (isCursorInside _ _ _); destruct sel; reflexivity.
Qed.

Lemma decorations_of_display (view : EditorView) (client : Client)
    (node : SyntaxNode) :
  name node = "DisplayLatex" ->
  decorations_of view client node =
  if touched view (node_from node) (node_to node) then []
  else match display_regex_exec (node_text view node) with
       | Some formula =>
           [display_decoration client (node_from node) (node_to node) formula]
       | None => []
       end.
Proof.
  intros Hname. unfold decorations_of, enter, touched, node_text. rewrite Hname.
  change (str_eqb "DisplayLatex" "InlineLatex") with false.
  change (str_eqb "DisplayLatex" "DisplayLatex") with true. cbv iota.
  destruct (isNodeInSelection _ _ _) as [sel logged].
  destruct (isCursorInside _ _ _); destruct sel; try reflexivity.
  simpl. destruct (display_regex_exec _); reflexivity.
Qed.

Lemma decorations_of_other (view : EditorView) (client : Client)
    (node : SyntaxNode) :
  name node <> "InlineLatex" -> name node <> "DisplayLatex" ->
  decorations_of view client node = [].
Proof.
  intros N1 N2. unfold decorations_of, enter, str_eqb.
  apply String.eqb_neq in N1, N2. now rewrite N1, N2.
Qed.

(** A live node is not decorated, whatever its type. *)
Lemma decorations_of_touched (view : EditorView) (client : Client)
    (node : SyntaxNode) :
  touched view (node_from node) (node_to node) = true ->
  decorations_of view client node = [].
Proof.
  intros Ht.
  destruct (String.eqb_spec (name node) "InlineLatex") as [E1|N1].
  { rewrite (decorations_of_inline _ _ _ E1). now rewrite Ht. }
  destruct (String.eqb_spec (name node) "DisplayLatex") as [E2|N2].
  { rewrite (decorations_of_display _ _ _ E2). now rewrite Ht. }
  now apply decorations_of_other.
Qed.

(** [enter] only appends to the list of widgets. *)
Lemma enter_widgets (view : EditorView) (client : Client) (b : Builder)
    (node : SyntaxNode) :
  widgets (enter view client b node) = widgets b ++ decorations_of view client node.
Proof.
  unfold decorations_of, enter.
  destruct (str_eqb (name node) "InlineLatex").
  - destruct (isNodeInSelection _ _ _) as [sel logged].
    destruct (negb _ && negb sel); simpl; now rewrite ?app_nil_r.
  - destruct (str_eqb (name node) "DisplayLatex").
    + destruct (isNodeInSelection _ _ _) as [sel logged].
      destruct (negb _ && negb sel); simpl; [|now rewrite app_nil_r].
      destruct (display_regex_exec _); simpl; now rewrite ?app_nil_r.
    + now rewrite app_nil_r.
Qed.

Lemma fold_enter_widgets (view : EditorView) (client : Client)
    (nodes : list SyntaxNode) (b : Builder) :
  widgets (fold_left (enter view client) nodes b) =
  widgets b ++ flat_map (decorations_of view client) nodes.
Proof.
  revert b. induction nodes as [|n nodes IH]; intros b; simpl.
  - now rewrite app_nil_r.
  - rewrite IH, enter_widgets. now rewrite <- app_assoc.
Qed.

Lemma walk_widgets (view : EditorView) (client : Client) :
  widgets (walk view client) = flat_map (decorations_of view client) (visited view).
Proof.
  unfold walk, visited.
  change (flat_map (decorations_of view client)
            (flat_map (fun '(from, to) => iterate (syntaxTree (state view)) from to)
                      (visibleRanges view)))
    with (widgets new_builder ++
          flat_map (decorations_of view client)
            (flat_map (fun '(from, to) => iterate (syntaxTree (state view)) from to)
                      (visibleRanges view))).
  generalize new_builder.
  induction (visibleRanges view) as [|[from to] rs IH]; intros b; simpl.
  - now rewrite app_nil_r.
  - rewrite IH, fold_enter_widgets, flat_map_app. now rewrite <- app_assoc.
Qed.

Lemma insert_sorted_perm (d : DecoRange) (l : list DecoRange) :
  Permutation (insert_sorted d l) (d :: l).
Proof.
  induction l as [|x l IH]; simpl; [reflexivity|].
  destruct (deco_from d <? deco_from x); [reflexivity|].
  rewrite IH. apply perm_swap.
Qed.

(** Sorting keeps the decorations, each as often as it was pushed. *)
Lemma Decoration_set_perm (l : list DecoRange) :
  Permutation (Decoration_set l) l.
Proof.
  unfold Decoration_set.
  assert (forall acc, Permutation (fold_left (fun a d => insert_sorted d a) l acc)
                                  (acc ++ l)) as H.
  { induction l as [|d l IH]; intros acc; simpl.
    - now rewrite app_nil_r.
    - rewrite IH, insert_sorted_perm. simpl. apply Permutation_middle. }
  apply (H []).
Qed.

(** The exposed set holds what [enter] pushed for the nodes entered, and
    nothing else. *)
Lemma createLatexDecorations_perm (view : EditorView) (client : Client) :
  Permutation (fst (createLatexDecorations view client))
              (flat_map (decorations_of view client) (visited view)).
Proof.
  unfold createLatexDecorations. simpl.
  rewrite Decoration_set_perm. now rewrite walk_widgets.
Qed.

Lemma logged_for_failed_display (view : EditorView) (client : Client)
    (node : SyntaxNode) :
  name node = "DisplayLatex" ->
  touched view (node_from node) (node_to node) = false ->
  display_regex_exec (node_text view node) = None ->
  logged_for view client node = [ErrFailedToExtract (node_text view node)].
Proof.
  intros Hname Ht Hm. unfold logged_for, enter, touched, node_text in *.
  rewrite Hname.
  change (str_eqb "DisplayLatex" "InlineLatex") with false.
  change (str_eqb "DisplayLatex" "DisplayLatex") with true. cbv iota.
  apply orb_false_iff in Ht as [Hc Hs].
  pose proof (isNodeInSelection_false_log _ _ _ Hs) as Hl.
  destruct (isNodeInSelection _ _ _) as [sel logged]. simpl in Hs, Hl.
  subst sel logged. rewrite Hc. simpl. now rewrite Hm.
Qed.

Lemma in_decorations_of_inline (view : EditorView) (client : Client)
    (node : SyntaxNode) (d : DecoRange) :
  name node = "InlineLatex" ->
  In d (decorations_of view client node) ->
  d = inline_decoration client (node_from node) (node_to node)
        (sliceString (doc (state view)) (node_from node + 1) (node_to node - 1)).
Proof.
  intros Hname Hin. rewrite (decorations_of_inline _ _ _ Hname) in Hin.
  destruct (touched _ _ _); [destruct Hin|].
  destruct Hin as [<-|[]]. reflexivity.
Qed.

Lemma in_decorations_of_display (view : EditorView) (client : Client)
    (node : SyntaxNode) (d : DecoRange) :
  name node = "DisplayLatex" ->
  In d (decorations_of view client node) ->
  exists formula,
    display_regex_exec (node_text view node) = Some formula
    /\ d = display_decoration client (node_from node) (node_to node) formula.
Proof.
  intros Hname Hin. rewrite (decorations_of_display _ _ _ Hname) in Hin.
  destruct (touched _ _ _); [destruct Hin|].
  destruct (display_regex_exec _) as [formula|]; [|destruct Hin].
  destruct Hin as [<-|[]]. now exists formula.
Qed.

Lemma filter_length_perm {A} (f : A -> bool) (l l' : list A) :
  Permutation l l' ->
  length (List.filter f l) = length (List.filter f l').
Proof.
  induction 1 as [|x l l' _ IH|x y l|l l' l'' _ IH1 _ IH2]; simpl.
  - reflexivity.
  - destruct (f x); simpl; now rewrite IH.
  - destruct (f x), (f y); reflexivity.
  - now rewrite IH1.
Qed.







(** ** The claims about the decoration builder *)




(** C2. For a [DisplayLatex] node the whole slice [from, to) is matched
    against the display pattern, which accepts exactly two dollars, any
    text (line breaks included), two dollars.  When it matches, the
    widget's formula is the text between the delimiters; the sample
    block yields its formula with both line breaks.  When it does not,
    the node gets no decoration, the failure is written to the console,
    and the builder goes on (it is a total function: nothing is
    thrown). *)
Theorem C2_display_node_must_match
    (view : EditorView) (client : Client) (node : SyntaxNode) :
  name node = "DisplayLatex" ->
  (forall formula,
     display_regex_exec (node_text view node) = Some formula <->
     node_text view node = "$$" +:+ formula +:+ "$$")
  /\ (forall formula,
        display_regex_exec (node_text view node) = Some formula ->
        touched view (node_from node) (node_to node) = false ->
        decorations_of view client node =
        [display_decoration client (node_from node) (node_to node) formula])
  /\ (display_regex_exec (node_text view node) = None ->
      decorations_of view client node = []
      /\ (touched view (node_from node) (node_to node) = false ->
          logged_for view client node =
          [ErrFailedToExtract (node_text view node)]))
  /\ display_regex_exec block_doc = Some block_formula.
Proof.
  intros Hname. split; [intros f; apply display_regex_exec_spec|].
  split; [|split].
  - intros f Hm Ht. rewrite (decorations_of_display _ _ _ Hname), Ht.
    now rewrite Hm.
  - intros Hm. split.
    + rewrite (decorations_of_display _ _ _ Hname), Hm.
      now destruct (touched _ _ _).
    + intros Ht. now apply logged_for_failed_display.
  - reflexivity.
Qed.

Lemma C2_witness :
  (decorations_of broken_view sample_client broken_node = []
   /\ logged_for broken_view sample_client broken_node =
      [ErrFailedToExtract "$$x$"])
  /\ decorations_of block_view sample_client block_node =
     [display_decoration sample_client 6 26 block_formula].
Proof.
  split.
  - destruct (C2_display_node_must_match broken_view sample_client broken_node
                eq_refl) as (_ & _ & H & _).
    destruct (H eq_refl) as [H1 H2]. split; [exact H1 | exact (H2 eq_refl)].
  - destruct (C2_display_node_must_match block_view sample_client block_node
                eq_refl) as (_ & H & _).
    exact (H block_formula eq_refl eq_refl).
Defined.

(** C5 fails as stated for the sample sentence: in it the opening dollar
    is at offset 18, so [19, 32) is not a formula span, and an inline
    node over [19, 32) would lose the first letter of the formula. *)
Lemma C5_counterexample :
  sliceString euler_doc 19 32 = "e^{i\pi}+1=0$"
  /\ ~ (exists d,
          decorations_of (euler_view 0) sample_client (mkNode "InlineLatex" 19 32) = [d]
          /\ widget_formula (widget (deco d)) = "e^{i\pi}+1=0").
Proof.
  split; [reflexivity|].
  intros (d & Hd & Hf). vm_compute in Hd. injection Hd as <-.
  vm_compute in Hf. discriminate Hf.
Qed.

(** C5, amended.  For an [InlineLatex] node the widget's formula is the
    slice [from+1, to-1): one code unit is dropped at each end and the
    text is not looked at (every such node that is not live is
    decorated).  In the sample sentence, with the cursor at the start of
    the document, the inline span is [18, 32) and the only decoration
    replaces it by a widget whose formula is the text between the
    dollars. *)
Theorem C5_inline_formula_is_the_inner_slice
    (view : EditorView) (client : Client) (node : SyntaxNode) :
  name node = "InlineLatex" ->
  (forall d, In d (decorations_of view client node) ->
     deco_from d = node_from node /\ deco_to d = node_to node
     /\ widget_formula (widget (deco d)) =
        sliceString (doc (state view)) (node_from node + 1) (node_to node - 1))
  /\ (touched view (node_from node) (node_to node) = false ->
      decorations_of view client node =
      [inline_decoration client (node_from node) (node_to node)
         (sliceString (doc (state view)) (node_from node + 1) (node_to node - 1))])
  /\ node_text (euler_view 0) euler_node = "$e^{i\pi}+1=0$"
  /\ createLatexDecorations (euler_view 0) sample_client =
     ([inline_decoration sample_client 18 32 "e^{i\pi}+1=0"], [LogCreated 1 0]).
Proof.
  intros Hname. split; [|split; [|split; reflexivity]].
  - intros d Hin. apply (in_decorations_of_inline _ _ _ _ Hname) in Hin.
    subst d. repeat split.
  - intros Ht. rewrite (decorations_of_inline _ _ _ Hname). now rewrite Ht.
Qed.

Lemma C5_witness :
  decorations_of (euler_view 0) sample_client euler_node =
  [inline_decoration sample_client 18 32 (sliceString euler_doc 19 31)].
Proof.
  destruct (C5_inline_formula_is_the_inner_slice
              (euler_view 0) sample_client euler_node eq_refl) as (_ & H & _).
  exact (H eq_refl).
Defined.

(** C6. Two widgets of the same class are equal for [eq] exactly when
    their formulas are the same string; the client and the click-target
    offset play no part. *)
Theorem C6_widgets_equal_iff_same_formula :
  (forall a b : InlineLatexWidget,
     InlineLatexWidget_eq a b = true <-> inline_formula a = inline_formula b)
  /\ (forall a b : DisplayLatexWidget,
        DisplayLatexWidget_eq a b = true <-> display_formula a = display_formula b)
  /\ (forall formula client client' pos pos',
        InlineLatexWidget_eq (mkInline formula client pos)
                             (mkInline formula client' pos') = true
        /\ DisplayLatexWidget_eq (mkDisplay formula client pos)
                                 (mkDisplay formula client' pos') = true).
Proof.
  unfold InlineLatexWidget_eq, DisplayLatexWidget_eq, str_eqb.
  split; [|split].
  - intros a b. rewrite String.eqb_eq. split; congruence.
  - intros a b. rewrite String.eqb_eq. split; congruence.
  - intros formula client client' pos pos'. simpl.
    now rewrite String.eqb_refl.
Qed.

(** C7. The click target recorded in the widget of a decorated inline
    span is [from + 1], that of a decorated display span is [from + 2];
    read back together with the bounds of the decoration it is an offset
    strictly inside the span (for an inline span this uses that the span
    holds its two delimiters). *)
Theorem C7_click_target_is_inside_the_span
    (view : EditorView) (client : Client) (node : SyntaxNode) (d : DecoRange) :
  In d (decorations_of view client node) ->
  deco_from d = node_from node /\ deco_to d = node_to node
  /\ (name node = "InlineLatex" ->
      widget_pos (widget (deco d)) = deco_from d + 1
      /\ (forall formula, node_text view node = "$" +:+ formula +:+ "$" ->
          deco_from d < widget_pos (widget (deco d)) < deco_to d))
  /\ (name node = "DisplayLatex" ->
      widget_pos (widget (deco d)) = deco_from d + 2
      /\ deco_from d < widget_pos (widget (deco d)) < deco_to d).
Proof.
  intros Hin.
  pose proof (sliceString_length (doc (state view)) (node_from node)
                (node_to node)) as Hlen.
  fold (node_text view node) in Hlen.
  destruct (String.eqb_spec (name node) "InlineLatex") as [E1|N1].
  - pose proof (in_decorations_of_inline _ _ _ _ E1 Hin) as ->. simpl.
    split; [reflexivity|]. split; [reflexivity|]. split.
    + intros _. split; [reflexivity|]. intros formula Htext.
      rewrite Htext, !length_append in Hlen. simpl in Hlen. lia.
    + intros E2. rewrite E1 in E2. discriminate E2.
  - destruct (String.eqb_spec (name node) "DisplayLatex") as [E2|N2].
    + destruct (in_decorations_of_display _ _ _ _ E2 Hin) as (f & Hm & ->).
      simpl. pose proof (display_regex_exec_length _ _ Hm) as H4.
      split; [reflexivity|]. split; [reflexivity|]. split.
      * intros E1. congruence.
      * intros _. split; [reflexivity | lia].
    + rewrite (decorations_of_other _ _ _ N1 N2) in Hin. destruct Hin.
Qed.

Lemma C7_witness :
  widget_pos (widget (deco (inline_decoration sample_client 18 32 "e^{i\pi}+1=0"))) = 19
  /\ widget_pos (widget (deco (display_decoration sample_client 6 26 block_formula))) = 8.
Proof.
  split.
  - destruct (C7_click_target_is_inside_the_span (euler_view 0) sample_client
                euler_node (inline_decoration sample_client 18 32 "e^{i\pi}+1=0")
                (or_introl eq_refl)) as (_ & _ & H & _).
    exact (proj1 (H eq_refl)).
  - destruct (C7_click_target_is_inside_the_span block_view sample_client
                block_node (display_decoration sample_client 6 26 block_formula)
                (or_introl eq_refl)) as (_ & _ & _ & H).
    exact (proj1 (H eq_refl)).
Defined.

(** C10. A second, empty selection range at [p] makes a span live only
    when [p] is strictly between the bounds: with the primary cursor
    outside [from, to] and no other range overlapping, the span is live
    exactly when [from < p < to].  At [p = from] or [p = to] the span
    keeps its decoration, whereas the primary cursor at either bound
    makes the span live. *)
Theorem C10_secondary_cursor_is_tested_strictly
    (view : EditorView) (client : Client) (node : SyntaxNode)
    (before after : list SelectionRange) (p : Z) :
  ranges (selection (state view)) = before ++ mkRange p p :: after ->
  isCursorInside (head (main (selection (state view))))
                 (node_from node) (node_to node) = false ->
  fst (isNodeInSelection (before ++ after) (node_from node) (node_to node)) = false ->
  (touched view (node_from node) (node_to node) = true <->
   node_from node < p < node_to node)
  /\ (name node = "InlineLatex" -> p = node_from node \/ p = node_to node ->
      decorations_of view client node =
      [inline_decoration client (node_from node) (node_to node)
         (sliceString (doc (state view)) (node_from node + 1) (node_to node - 1))])
  /\ (node_from node <= node_to node ->
      forall view' : EditorView,
        head (main (selection (state view'))) = node_from node
        \/ head (main (selection (state view'))) = node_to node ->
        touched view' (node_from node) (node_to node) = true).
Proof.
  intros Hr Hc Hs.
  assert (touched view (node_from node) (node_to node) = true <->
          node_from node < p < node_to node) as Hiff.
  { unfold touched. rewrite Hc, Hr. simpl. rewrite isNodeInSelection_true.
    split.
    - intros (r & Hin & H1 & H2). apply in_app_or in Hin as [Hin|[<-|Hin]].
      + exfalso. assert (fst (isNodeInSelection (before ++ after)
                                (node_from node) (node_to node)) = true) as Ht.
        { apply isNodeInSelection_true. exists r. split; [|lia].
          apply in_or_app. now left. }
        congruence.
      + unfold range_from, range_to in *. simpl in *. lia.
      + exfalso. assert (fst (isNodeInSelection (before ++ after)
                                (node_from node) (node_to node)) = true) as Ht.
        { apply isNodeInSelection_true. exists r. split; [|lia].
          apply in_or_app. now right. }
        congruence.
    - intros H. exists (mkRange p p). split.
      + apply in_or_app. right. now left.
      + unfold range_from, range_to. simpl. lia. }
  split; [exact Hiff|]. split.
  - intros Hname Hp. rewrite (decorations_of_inline _ _ _ Hname).
    destruct (touched view (node_from node) (node_to node)); [|reflexivity].
    exfalso. assert (node_from node < p < node_to node) by now apply Hiff.
    lia.
  - intros Hle view' Hh. unfold touched.
    assert (isCursorInside (head (main (selection (state view'))))
              (node_from node) (node_to node) = true) as ->.
    { apply isCursorInside_true. lia. }
    reflexivity.
Qed.

Lemma C10_witness :
  (touched (two_cursor_view 18) 18 32 = true <-> 18 < 18 < 32)
  /\ decorations_of (two_cursor_view 18) sample_client euler_node =
     [inline_decoration sample_client 18 32 "e^{i\pi}+1=0"]
  /\ decorations_of (two_cursor_view 32) sample_client euler_node =
     [inline_decoration sample_client 18 32 "e^{i\pi}+1=0"]
  /\ touched (euler_view 18) 18 32 = true
  /\ touched (euler_view 32) 18 32 = true.
Proof.
  destruct (C10_secondary_cursor_is_tested_strictly (two_cursor_view 18)
              sample_client euler_node [mkRange 0 0] [] 18
              eq_refl eq_refl eq_refl) as (H1 & H2 & H3).
  destruct (C10_secondary_cursor_is_tested_strictly (two_cursor_view 32)
              sample_client euler_node [mkRange 0 0] [] 32
              eq_refl eq_refl eq_refl) as (_ & H4 & _).
  split; [exact H1|]. split; [exact (H2 eq_refl (or_introl eq_refl))|].
  split; [exact (H4 eq_refl (or_intror eq_refl))|].
  assert (18 <= 32) as Hle by (simpl; lia).
  split.
  - exact (H3 Hle (euler_view 18) (or_introl eq_refl)).
  - exact (H3 Hle (euler_view 32) (or_intror eq_refl)).
Defined.

(** ** Rendering a widget *)

Lemma lookup_after {A} (h l : list A) (i : nat) :
  (h ++ l) !! (length h + i)%nat = l !! i.
Proof. induction h as [|x h IH]; [reflexivity | exact IH]. Qed.

Lemma alter_at_length {A} (f : A -> A) (h l : list A) (e : A) :
  alter f (length h) (h ++ e :: l) = h ++ f e :: l.
Proof.
  replace (length h) with (length h + 0)%nat by lia.
  now rewrite alter_app_r.
Qed.

Lemma alter_last {A} (f : A -> A) (h : list A) (e : A) :
  alter f (length h) (h ++ [e]) = h ++ [f e].
Proof. apply alter_at_length. Qed.

Lemma lookup_last {A} (h : list A) (e : A) :
  (h ++ [e]) !! length h = Some e.
Proof.
  replace (length h) with (length h + 0)%nat by lia.
  now rewrite lookup_after.
Qed.

Lemma insert_last {A} (h : list A) (e e' : A) :
  <[length h := e']> (h ++ [e]) = h ++ [e'].
Proof.
  replace (length h) with (length h + 0)%nat by lia.
  now rewrite insert_app_r.
Qed.

(** [InlineLatexWidget.toDOM] always returns the wrapper it created.  If
    the typesetter returned, the wrapper holds what it rendered; if it
    threw, the wrapper holds the raw text and carries the error class. *)
Lemma InlineLatexWidget_toDOM_eval
    (katex_impl : string -> bool -> list DomNode -> list DomNode * option string)
    (this : InlineLatexWidget) (w : World) :
  InlineLatexWidget_toDOM katex_impl this w =
  match katex_impl (inline_formula this) false [] with
  | (kids, None) =>
      (Normal (length (heap w)),
       mkWorld (world_console w)
               (heap w ++ [mkElement "span" ["sb-latex-inline"] kids
                                     [InlineClick this]]))
  | (kids, Some error) =>
      (Normal (length (heap w)),
       mkWorld (world_console w ++ [ErrKatex error])
               (heap w ++ [mkElement "span" ["sb-latex-inline"; "sb-latex-error"]
                                     [Text ("$" +:+ inline_formula this +:+ "$")]
                                     [InlineClick this]]))
  end.
Proof.
  destruct w as [c h].
  unfold InlineLatexWidget_toDOM, mbind, Js_bind, mret, Js_ret, try_catch,
    createElement, set_className, katex_render, console_error, set_textContent,
    classList_add, addEventListener_click, modify_element.
  cbn [heap world_console].
  rewrite alter_last. cbn [tagName classList childNodes clickListeners].
  rewrite lookup_last. cbn [tagName classList childNodes clickListeners].
  destruct (katex_impl (inline_formula this) false []) as [kids [error|]];
    cbn [heap world_console]; rewrite insert_last, !alter_last; reflexivity.
Qed.

(** The same for [DisplayLatexWidget.toDOM]; the element the typesetter
    worked on is the second one created, and after a throw it is not a
    child of the wrapper. *)
Lemma DisplayLatexWidget_toDOM_eval
    (katex_impl : string -> bool -> list DomNode -> list DomNode * option string)
    (this : DisplayLatexWidget) (w : World) :
  DisplayLatexWidget_toDOM katex_impl this w =
  match katex_impl (display_formula this) true [] with
  | (kids, None) =>
      (Normal (length (heap w)),
       mkWorld (world_console w)
               (heap w ++ [mkElement "div" ["sb-latex-display"]
                                     [Child (length (heap w) + 1)]
                                     [DisplayClick this];
                           mkElement "div" ["sb-latex-katex-output"] kids []]))
  | (kids, Some error) =>
      (Normal (length (heap w)),
       mkWorld (world_console w ++ [ErrKatex error])
               (heap w ++ [mkElement "div" ["sb-latex-display"; "sb-latex-error"]
                                     [Text ("$$" +:+ display_formula this +:+ "$$")]
                                     [DisplayClick this];
                           mkElement "div" ["sb-latex-katex-output"] kids []]))
  end.
Proof.
  destruct w as [c h].
  unfold DisplayLatexWidget_toDOM, mbind, Js_bind, mret, Js_ret, try_catch,
    createElement, set_className, katex_render, console_error, set_textContent,
    classList_add, addEventListener_click, appendChild, modify_element.
  cbn [heap world_console].
  rewrite alter_last. cbn [tagName classList childNodes clickListeners].
  rewrite length_app. cbn [length].
  rewrite <- (app_assoc h [_] [_]). cbn [app].
  rewrite !(alter_app_r _ h _ 1), lookup_after.
  cbn [alter list_alter lookup list_lookup tagName classList childNodes
       clickListeners].
  destruct (katex_impl (display_formula this) true []) as [kids [error|]];
    cbn [heap world_console]; rewrite (insert_app_r h _ 1);
    cbn [insert list_insert]; rewrite !alter_at_length; reflexivity.
Qed.

(** C3 fails as stated for a formula with an unmatched brace: the
    typesetter is called with [throwOnError: false], and one that honours
    the option typesets the parse error itself and does not throw, so the
    wrapper holds the typesetter's output, not the raw text, and carries
    no error class. *)
Lemma C3_counterexample :
  InlineLatexWidget_toDOM lenient_katex (mkInline "\frac{1" sample_client 19)
                          empty_world =
  (Normal 0%nat,
   mkWorld []
     [mkElement "span" ["sb-latex-inline"]
        [Typeset "<span class=katex-error style=color:#f44336>\frac{1</span>"]
        [InlineClick (mkInline "\frac{1" sample_client 19)]])
  /\ ~ (exists w' element,
          InlineLatexWidget_toDOM lenient_katex
            (mkInline "\frac{1" sample_client 19) empty_world = (Normal 0%nat, w')
          /\ heap w' !! 0%nat = Some element
          /\ childNodes element = [Text "$\frac{1$"]
          /\ In "sb-latex-error" (classList element)).
Proof.
  split; [reflexivity|].
  intros (w' & element & Hrun & Hlook & Hkids & _).
  vm_compute in Hrun. injection Hrun as <-.
  vm_compute in Hlook. injection Hlook as <-.
  discriminate Hkids.
Qed.

(** C3, amended.  Whatever the typesetter does, [toDOM] returns its
    wrapper and throws nothing.  When the typesetting call throws, what
    it may have left behind is dropped: the wrapper's only child is the
    raw text between its delimiters (one dollar on each side for an
    inline widget, two for a display widget), the wrapper carries the
    class [sb-latex-error], and the error is written to the console.
    When the call returns, and so for every formula the typesetter
    handles itself under [throwOnError: false], the wrapper holds what the
    typesetter rendered, carries no error class, and nothing is
    logged. *)
Theorem C3_render_failure_shows_the_raw_text
    (katex_impl : string -> bool -> list DomNode -> list DomNode * option string)
    (w : World) :
  (forall widget, exists w',
      toDOM katex_impl widget w = (Normal (length (heap w)), w'))
  /\ (forall this error,
        snd (katex_impl (inline_formula this) false []) = Some error ->
        exists w',
          InlineLatexWidget_toDOM katex_impl this w = (Normal (length (heap w)), w')
          /\ heap w' !! length (heap w) =
             Some (mkElement "span" ["sb-latex-inline"; "sb-latex-error"]
                             [Text ("$" +:+ inline_formula this +:+ "$")]
                             [InlineClick this])
          /\ world_console w' = world_console w ++ [ErrKatex error])
  /\ (forall this error,
        snd (katex_impl (display_formula this) true []) = Some error ->
        exists w',
          DisplayLatexWidget_toDOM katex_impl this w = (Normal (length (heap w)), w')
          /\ heap w' !! length (heap w) =
             Some (mkElement "div" ["sb-latex-display"; "sb-latex-error"]
                             [Text ("$$" +:+ display_formula this +:+ "$$")]
                             [DisplayClick this])
          /\ world_console w' = world_console w ++ [ErrKatex error])
  /\ (forall this,
        snd (katex_impl (inline_formula this) false []) = None ->
        exists w',
          InlineLatexWidget_toDOM katex_impl this w = (Normal (length (heap w)), w')
          /\ heap w' !! length (heap w) =
             Some (mkElement "span" ["sb-latex-inline"]
                             (fst (katex_impl (inline_formula this) false []))
                             [InlineClick this])
          /\ world_console w' = world_console w)
  /\ (forall this,
        snd (katex_impl (display_formula this) true []) = None ->
        exists w',
          DisplayLatexWidget_toDOM katex_impl this w = (Normal (length (heap w)), w')
          /\ heap w' !! length (heap w) =
             Some (mkElement "div" ["sb-latex-display"]
                             [Child (length (heap w) + 1)]
                             [DisplayClick this])
          /\ heap w' !! (length (heap w) + 1)%nat =
             Some (mkElement "div" ["sb-latex-katex-output"]
                             (fst (katex_impl (display_formula this) true []))
                             [])
          /\ world_console w' = world_console w).
Proof.
  split; [|split; [|split; [|split]]].
  - intros [this|this]; simpl.
    + rewrite InlineLatexWidget_toDOM_eval.
      destruct (katex_impl _ _ _) as [kids [error|]]; eexists; reflexivity.
    + rewrite DisplayLatexWidget_toDOM_eval.
      destruct (katex_impl _ _ _) as [kids [error|]]; eexists; reflexivity.
  - intros this error H. rewrite InlineLatexWidget_toDOM_eval.
    destruct (katex_impl _ _ _) as [kids thrown]. simpl in H. subst thrown.
    eexists. split; [reflexivity|]. split; [|reflexivity].
    simpl. apply lookup_last.
  - intros this error H. rewrite DisplayLatexWidget_toDOM_eval.
    destruct (katex_impl _ _ _) as [kids thrown]. simpl in H. subst thrown.
    eexists. split; [reflexivity|]. split; [|reflexivity].
    simpl. replace (length (heap w)) with (length (heap w) + 0)%nat by lia.
    now rewrite lookup_after.
  - intros this H. rewrite InlineLatexWidget_toDOM_eval.
    destruct (katex_impl _ _ _) as [kids thrown]. simpl in H. subst thrown.
    eexists. split; [reflexivity|]. split; [|reflexivity].
    simpl. apply lookup_last.
  - intros this H. rewrite DisplayLatexWidget_toDOM_eval.
    destruct (katex_impl _ _ _) as [kids thrown]. simpl in H. subst thrown.
    eexists. split; [reflexivity|]. simpl. split; [|split; [|reflexivity]].
    + replace (length (heap w)) with (length (heap w) + 0)%nat at 1 by lia.
      now rewrite lookup_after.
    + now rewrite lookup_after.
Qed.

Lemma C3_witness :
  exists w',
    InlineLatexWidget_toDOM strict_katex (mkInline "\frac{1" sample_client 19)
                            empty_world = (Normal 0%nat, w')
    /\ heap w' !! 0%nat =
       Some (mkElement "span" ["sb-latex-inline"; "sb-latex-error"]
                       [Text "$\frac{1$"]
                       [InlineClick (mkInline "\frac{1" sample_client 19)])
    /\ world_console w' = [ErrKatex "ParseError"].
Proof.
  destruct (C3_render_failure_shows_the_raw_text strict_katex empty_world)
    as (_ & H & _).
  exact (H (mkInline "\frac{1" sample_client 19) "ParseError" eq_refl).
Defined.

(** ** The controller of [latex.ts] *)

Section ViewDragFacts.
Variable client : Client.

(** The drag-end callbacks touch the drag flag, the dispatch counter and
    the log, nothing else. *)
Lemma ViewDrag_callbacks (cs : list ViewDrag.Callback) (s : ViewDrag.Plugin) :
  let s' := fold_left ViewDrag.run_callback cs s in
  ViewDrag.timers s' = ViewDrag.timers s
  /\ ViewDrag.dragEndTimeout s' = ViewDrag.dragEndTimeout s
  /\ ViewDrag.nextTimer s' = ViewDrag.nextTimer s
  /\ ViewDrag.decorations s' = ViewDrag.decorations s
  /\ ViewDrag.rebuilds s' = ViewDrag.rebuilds s
  /\ (cs <> [] -> ViewDrag.isDragging s' = false)
  /\ (cs = [] -> ViewDrag.isDragging s' = ViewDrag.isDragging s).
Proof.
  revert s. induction cs as [|c cs IH]; intros s; simpl.
  - repeat split; congruence.
  - destruct (IH (ViewDrag.run_callback s c)) as (H1 & H2 & H3 & H4 & H5 & H6 & H7).
    destruct c; simpl in *.
    repeat split; try congruence.
    intros _. destruct cs as [|c' cs']; [now rewrite H7 | now apply H6].
Qed.

Lemma ViewDrag_rebuild_fields (v : EditorView) (s : ViewDrag.Plugin) :
  let s' := ViewDrag.rebuild client v s in
  ViewDrag.timers s' = ViewDrag.timers s
  /\ ViewDrag.dragEndTimeout s' = ViewDrag.dragEndTimeout s
  /\ ViewDrag.nextTimer s' = ViewDrag.nextTimer s
  /\ ViewDrag.isDragging s' = ViewDrag.isDragging s
  /\ ViewDrag.decorations s' = fst (createLatexDecorations v client)
  /\ ViewDrag.rebuilds s' = S (ViewDrag.rebuilds s).
Proof.
  unfold ViewDrag.rebuild.
  destruct (createLatexDecorations v client) as [set logged]. simpl.
  repeat split.
Qed.

Lemma ViewDrag_update_fields (s : ViewDrag.Plugin) (u : ViewUpdate) :
  let s' := ViewDrag.update client s u in
  ViewDrag.timers s' = ViewDrag.timers s
  /\ ViewDrag.dragEndTimeout s' = ViewDrag.dragEndTimeout s
  /\ ViewDrag.nextTimer s' = ViewDrag.nextTimer s
  /\ ViewDrag.isDragging s' = ViewDrag.isDragging s.
Proof.
  unfold ViewDrag.update.
  destruct (ViewDrag.isDragging s && selectionSet u && negb (docChanged u));
    [repeat split|].
  destruct (docChanged u || viewportChanged u || selectionSet u || treeChanged u);
    [|repeat split].
  match goal with
  | |- context [ViewDrag.rebuild client ?v ?x] =>
      destruct (ViewDrag_rebuild_fields v x) as (H1 & H2 & H3 & H4 & _)
  end.
  simpl in *. repeat split; assumption.
Qed.

(** Scheduling the drag end leaves exactly the new timer pending. *)
Lemma ViewDrag_handleDragEnd_timers (s : ViewDrag.Plugin) :
  single_timer s ->
  ViewDrag.timers (ViewDrag.handleDragEnd s) =
  [mkTimer (ViewDrag.nextTimer s) (ViewDrag.now s + 200)%nat ViewDrag.DragEnded].
Proof.
  intros (Hn & [Ht | (t & Ht & Hh & Hz)]); unfold ViewDrag.handleDragEnd; simpl.
  - rewrite Ht. destruct (ViewDrag.dragEndTimeout s) as [id|]; [|reflexivity].
    destruct (Nat.eqb id 0); reflexivity.
  - rewrite Hh, Ht. apply Nat.eqb_neq in Hz. rewrite Hz.
    unfold clearTimeout. simpl. now rewrite Nat.eqb_refl.
Qed.

Lemma ViewDrag_handleDragEnd_ok (s : ViewDrag.Plugin) :
  single_timer s -> single_timer (ViewDrag.handleDragEnd s).
Proof.
  intros H. pose proof (ViewDrag_handleDragEnd_timers s H) as Ht.
  destruct H as (Hn & _). split; [simpl; lia|].
  right. eexists. split; [exact Ht|]. simpl. split; [reflexivity | lia].
Qed.

Lemma ViewDrag_elapse_ok (ms : nat) (s : ViewDrag.Plugin) :
  single_timer s -> single_timer (ViewDrag.elapse ms s).
Proof.
  intros (Hn & Hs). unfold ViewDrag.elapse.
  match goal with
  | |- single_timer (fold_left _ ?cs ?x) =>
      destruct (ViewDrag_callbacks cs x) as (H1 & H2 & H3 & _)
  end.
  unfold single_timer. rewrite H1, H2, H3. simpl. split; [exact Hn|].
  destruct Hs as [Ht | (t & Ht & Hh & Hz)]; rewrite Ht; simpl.
  - now left.
  - destruct (is_due _ t); simpl; [now left|].
    right. exists t. repeat split; assumption.
Qed.

Lemma ViewDrag_step_ok (s : ViewDrag.Plugin) (e : ViewDrag.Event) :
  single_timer s -> single_timer (ViewDrag.step client s e).
Proof.
  intros H. destruct e as [type buttons | u | ms]; simpl.
  - destruct type; try exact H.
    + destruct (negb (buttons =? 0)); exact H.
    + destruct (ViewDrag.isDragging s); [now apply ViewDrag_handleDragEnd_ok | exact H].
    + destruct (ViewDrag.isDragging s); [now apply ViewDrag_handleDragEnd_ok | exact H].
  - destruct (ViewDrag_update_fields (ViewDrag.set_view (update_view u) s) u)
      as (H1 & H2 & H3 & _).
    unfold single_timer. rewrite H1, H2, H3. exact H.
  - now apply ViewDrag_elapse_ok.
Qed.

Lemma ViewDrag_constructor_ok (v : EditorView) :
  single_timer (ViewDrag.constructor client v).
Proof.
  unfold ViewDrag.constructor.
  match goal with
  | |- single_timer (ViewDrag.rebuild client ?v ?x) =>
      destruct (ViewDrag_rebuild_fields v x) as (H1 & H2 & H3 & _)
  end.
  unfold single_timer. rewrite H1, H3. simpl. split; [lia | now left].
Qed.

Lemma ViewDrag_run_ok (es : list ViewDrag.Event) (s : ViewDrag.Plugin) :
  single_timer s -> single_timer (ViewDrag.run client s es).
Proof.
  revert s. induction es as [|e es IH]; intros s H; [exact H|].
  apply IH. now apply ViewDrag_step_ok.
Qed.

(** Whatever happens to the view, at most one drag-end timer is
    pending. *)
Lemma ViewDrag_one_pending_timer (v : EditorView) (es : list ViewDrag.Event) :
  (length (ViewDrag.timers
             (ViewDrag.run client (ViewDrag.constructor client v) es)) <= 1)%nat.
Proof.
  destruct (ViewDrag_run_ok es _ (ViewDrag_constructor_ok v))
    as (_ & [Ht | (t & Ht & _)]); rewrite Ht; simpl; lia.
Qed.

(** While the flag is set, an update that sets the selection and does
    not change the document leaves the decorations alone. *)
Lemma ViewDrag_update_while_dragging (s : ViewDrag.Plugin) (u : ViewUpdate) :
  ViewDrag.isDragging s = true ->
  selectionSet u = true -> docChanged u = false ->
  ViewDrag.decorations (ViewDrag.step client s (ViewDrag.Update u)) =
  ViewDrag.decorations s
  /\ ViewDrag.rebuilds (ViewDrag.step client s (ViewDrag.Update u)) =
     ViewDrag.rebuilds s.
Proof.
  intros Hd Hs Hc. simpl. unfold ViewDrag.update. simpl.
  rewrite Hd, Hs, Hc. simpl. split; reflexivity.
Qed.

(** A drag end scheduled from a state with the flag set: one timer is
    pending, due in 200 ms, and when it has run the flag is clear. *)
Lemma ViewDrag_drag_end (s : ViewDrag.Plugin) :
  single_timer s ->
  let s1 := ViewDrag.handleDragEnd s in
  ViewDrag.timers s1 =
  [mkTimer (ViewDrag.nextTimer s) (ViewDrag.now s + 200)%nat ViewDrag.DragEnded]
  /\ ViewDrag.isDragging s1 = ViewDrag.isDragging s
  /\ (forall ms, (ms < 200)%nat ->
        ViewDrag.isDragging (ViewDrag.elapse ms s1) = ViewDrag.isDragging s)
  /\ (forall ms, (200 <= ms)%nat ->
        ViewDrag.isDragging (ViewDrag.elapse ms s1) = false
        /\ ViewDrag.timers (ViewDrag.elapse ms s1) = []).
Proof.
  intros H s1. pose proof (ViewDrag_handleDragEnd_timers s H) as Ht.
  fold s1 in Ht. split; [exact Ht|]. split; [reflexivity|].
  assert (ViewDrag.now s1 = ViewDrag.now s) as Hnow by reflexivity.
  split.
  - intros ms Hms. unfold ViewDrag.elapse. rewrite Ht, Hnow. simpl.
    unfold is_due. simpl.
    assert (Nat.leb (ViewDrag.now s + 200) (ViewDrag.now s + ms) = false) as ->
      by (apply Nat.leb_gt; lia).
    reflexivity.
  - intros ms Hms. unfold ViewDrag.elapse. rewrite Ht, Hnow. simpl.
    unfold is_due. simpl.
    assert (Nat.leb (ViewDrag.now s + 200) (ViewDrag.now s + ms) = true) as ->
      by (apply Nat.leb_le; lia).
    simpl. split; reflexivity.
Qed.

(** The drag-end timer does not rebuild by itself: its callback clears
    the flag and dispatches an empty transaction.  An update in which
    nothing is flagged and the tree is the same does not rebuild
    either. *)
Lemma ViewDrag_timer_does_not_rebuild (s : ViewDrag.Plugin) (ms : nat) :
  single_timer s ->
  ViewDrag.rebuilds (ViewDrag.elapse ms (ViewDrag.handleDragEnd s)) =
  ViewDrag.rebuilds s
  /\ ViewDrag.decorations (ViewDrag.elapse ms (ViewDrag.handleDragEnd s)) =
     ViewDrag.decorations s.
Proof.
  intros _. unfold ViewDrag.elapse.
  match goal with
  | |- context [fold_left ViewDrag.run_callback ?cs ?x] =>
      destruct (ViewDrag_callbacks cs x) as (_ & _ & _ & H1 & H2 & _)
  end.
  split; [exact H2 | exact H1].
Qed.

Lemma ViewDrag_empty_update_does_not_rebuild (s : ViewDrag.Plugin)
    (u : ViewUpdate) :
  docChanged u = false -> viewportChanged u = false ->
  selectionSet u = false -> treeChanged u = false ->
  ViewDrag.rebuilds (ViewDrag.step client s (ViewDrag.Update u)) =
  ViewDrag.rebuilds s
  /\ ViewDrag.decorations (ViewDrag.step client s (ViewDrag.Update u)) =
     ViewDrag.decorations s.
Proof.
  intros Hc Hv Hs Ht. simpl. unfold ViewDrag.update.
  rewrite Hc, Hv, Hs, Ht, andb_false_r. simpl. split; reflexivity.
Qed.

End ViewDragFacts.

(** ** The controller of the document revision *)

Section DocumentDragFacts.
Variable client : Client.

Lemma DocumentDrag_rebuild_fields (v : EditorView) (s : DocumentDrag.Plugin) :
  let s' := DocumentDrag.rebuild client v s in
  DocumentDrag.timers s' = DocumentDrag.timers s
  /\ DocumentDrag.documentListeners s' = DocumentDrag.documentListeners s
  /\ DocumentDrag.cleanup s' = DocumentDrag.cleanup s
  /\ DocumentDrag.isDragging s' = DocumentDrag.isDragging s
  /\ DocumentDrag.view s' = DocumentDrag.view s
  /\ DocumentDrag.decorations s' = fst (createLatexDecorations v client)
  /\ DocumentDrag.rebuilds s' = S (DocumentDrag.rebuilds s).
Proof.
  unfold DocumentDrag.rebuild.
  destruct (createLatexDecorations v client) as [set logged]. simpl.
  repeat split.
Qed.

Lemma DocumentDrag_handler_fields (s : DocumentDrag.Plugin)
    (h : DocumentDrag.Handler) :
  let s' := DocumentDrag.run_handler s h in
  DocumentDrag.documentListeners s' = DocumentDrag.documentListeners s
  /\ DocumentDrag.cleanup s' = DocumentDrag.cleanup s.
Proof.
  destruct h; simpl; try (split; reflexivity);
    destruct (DocumentDrag.isDragging s); split; reflexivity.
Qed.

Lemma DocumentDrag_handlers_fields (hs : list DocumentDrag.Handler)
    (s : DocumentDrag.Plugin) :
  let s' := fold_left DocumentDrag.run_handler hs s in
  DocumentDrag.documentListeners s' = DocumentDrag.documentListeners s
  /\ DocumentDrag.cleanup s' = DocumentDrag.cleanup s.
Proof.
  revert s. induction hs as [|h hs IH]; intros s; simpl; [split; reflexivity|].
  destruct (IH (DocumentDrag.run_handler s h)) as [H1 H2].
  destruct (DocumentDrag_handler_fields s h) as [H3 H4].
  simpl in *. split; congruence.
Qed.

Lemma DocumentDrag_callbacks_fields (cs : list DocumentDrag.Callback)
    (s : DocumentDrag.Plugin) :
  let s' := fold_left (DocumentDrag.run_callback client) cs s in
  DocumentDrag.documentListeners s' = DocumentDrag.documentListeners s
  /\ DocumentDrag.cleanup s' = DocumentDrag.cleanup s.
Proof.
  revert s. induction cs as [|c cs IH]; intros s; simpl; [split; reflexivity|].
  destruct (IH (DocumentDrag.run_callback client s c)) as [H1 H2].
  destruct c. unfold DocumentDrag.run_callback in *.
  destruct (DocumentDrag_rebuild_fields (DocumentDrag.view s) s)
    as (_ & H3 & H4 & _).
  simpl in *. split; congruence.
Qed.

Lemma DocumentDrag_update_fields (s : DocumentDrag.Plugin) (u : ViewUpdate) :
  let s' := DocumentDrag.update client s u in
  DocumentDrag.documentListeners s' = DocumentDrag.documentListeners s
  /\ DocumentDrag.cleanup s' = DocumentDrag.cleanup s.
Proof.
  unfold DocumentDrag.update.
  destruct (docChanged u || viewportChanged u
            || selectionSet u && negb (DocumentDrag.isDragging s)
            || treeChanged u); [|split; reflexivity].
  match goal with
  | |- context [DocumentDrag.rebuild client ?v ?x] =>
      destruct (DocumentDrag_rebuild_fields v x) as (_ & H1 & H2 & _)
  end.
  simpl in *. split; assumption.
Qed.

(** With the four listeners in place, an event on the document runs the
    handler of its type; there is none for [mousemove] and
    [mouseleave]. *)
Lemma DocumentDrag_dispatch_installed (s : DocumentDrag.Plugin)
    (type : EventType) :
  DocumentDrag.documentListeners s = DocumentDrag.installed ->
  DocumentDrag.dispatchEvent type s =
  match type with
  | mousedown => DocumentDrag.run_handler s DocumentDrag.handleMouseDown
  | mouseup => DocumentDrag.run_handler s DocumentDrag.handleMouseUp
  | touchstart => DocumentDrag.run_handler s DocumentDrag.handleTouchStart
  | touchend => DocumentDrag.run_handler s DocumentDrag.handleTouchEnd
  | mousemove | mouseleave => s
  end.
Proof.
  intros H. unfold DocumentDrag.dispatchEvent. rewrite H.
  destruct type; reflexivity.
Qed.

(** Without listeners, events on the document do nothing. *)
Lemma DocumentDrag_dispatch_removed (s : DocumentDrag.Plugin)
    (type : EventType) :
  DocumentDrag.documentListeners s = [] ->
  DocumentDrag.dispatchEvent type s = s.
Proof.
  intros H. unfold DocumentDrag.dispatchEvent. now rewrite H.
Qed.

Lemma DocumentDrag_step_ok (s : DocumentDrag.Plugin) (e : DocumentDrag.Event) :
  listeners_ok s -> listeners_ok (DocumentDrag.step client s e).
Proof.
  intros (Hc & Hl). unfold listeners_ok.
  destruct e as [type | u | ms |]; simpl.
  - unfold DocumentDrag.dispatchEvent.
    match goal with
    | |- context [fold_left DocumentDrag.run_handler ?hs s] =>
        destruct (DocumentDrag_handlers_fields hs s) as [H1 H2]
    end.
    simpl in *. rewrite H1, H2. now split.
  - destruct (DocumentDrag_update_fields
                (DocumentDrag.set_view (update_view u) s) u) as [H1 H2].
    simpl in *. rewrite H1, H2. now split.
  - unfold DocumentDrag.elapse.
    match goal with
    | |- context [fold_left (DocumentDrag.run_callback client) ?cs ?x] =>
        destruct (DocumentDrag_callbacks_fields cs x) as [H1 H2]
    end.
    simpl in *. rewrite H1, H2. now split.
  - unfold DocumentDrag.destroy. simpl. rewrite Hc.
    unfold DocumentDrag.run_cleanup. simpl. split; [reflexivity|].
    right. destruct Hl as [-> | ->]; reflexivity.
Qed.

Lemma DocumentDrag_constructor_ok (v : EditorView) :
  listeners_ok (DocumentDrag.constructor client v)
  /\ DocumentDrag.documentListeners (DocumentDrag.constructor client v) =
     DocumentDrag.installed.
Proof.
  unfold DocumentDrag.constructor, listeners_ok, DocumentDrag.rebuild.
  destruct (createLatexDecorations v client) as [set logged]. simpl.
  split; [split; [reflexivity | now left] | reflexivity].
Qed.

Lemma DocumentDrag_run_ok (es : list DocumentDrag.Event)
    (s : DocumentDrag.Plugin) :
  listeners_ok s -> listeners_ok (DocumentDrag.run client s es).
Proof.
  revert s. induction es as [|e es IH]; intros s H; [exact H|].
  apply IH. now apply DocumentDrag_step_ok.
Qed.

(** [destroy] removes the listeners and leaves the timers alone. *)
Lemma DocumentDrag_destroy (s : DocumentDrag.Plugin) :
  listeners_ok s ->
  DocumentDrag.documentListeners (DocumentDrag.destroy s) = []
  /\ DocumentDrag.timers (DocumentDrag.destroy s) = DocumentDrag.timers s
  /\ DocumentDrag.destroyed (DocumentDrag.destroy s) = true.
Proof.
  intros (Hc & Hl). unfold DocumentDrag.destroy. simpl. rewrite Hc.
  unfold DocumentDrag.run_cleanup. simpl.
  destruct Hl as [-> | ->]; repeat split.
Qed.

(** While the flag is set, an update in which neither the document, nor
    the viewport, nor the tree changed leaves the decorations alone. *)
Lemma DocumentDrag_update_while_dragging (s : DocumentDrag.Plugin)
    (u : ViewUpdate) :
  DocumentDrag.isDragging s = true ->
  docChanged u = false -> viewportChanged u = false -> treeChanged u = false ->
  DocumentDrag.decorations (DocumentDrag.step client s (DocumentDrag.Update u)) =
  DocumentDrag.decorations s
  /\ DocumentDrag.rebuilds (DocumentDrag.step client s (DocumentDrag.Update u)) =
     DocumentDrag.rebuilds s.
Proof.
  intros Hd Hc Hv Ht. simpl. unfold DocumentDrag.update. simpl.
  rewrite Hd, Hc, Hv, Ht, andb_false_r. simpl. split; reflexivity.
Qed.

(** The end of a drag, no other timer pending: the flag is cleared at
    once and one timer is set; before its 50 ms have passed nothing is
    rebuilt, and when they have passed the decorations are rebuilt
    once, from the view as it then is. *)
Lemma DocumentDrag_drag_end (s : DocumentDrag.Plugin) (type : EventType) :
  DocumentDrag.documentListeners s = DocumentDrag.installed ->
  DocumentDrag.isDragging s = true ->
  DocumentDrag.timers s = [] ->
  type = mouseup \/ type = touchend ->
  let s1 := DocumentDrag.step client s (DocumentDrag.Document type) in
  DocumentDrag.isDragging s1 = false
  /\ DocumentDrag.decorations s1 = DocumentDrag.decorations s
  /\ DocumentDrag.rebuilds s1 = DocumentDrag.rebuilds s
  /\ DocumentDrag.timers s1 =
     [mkTimer (DocumentDrag.nextTimer s) (DocumentDrag.now s + 50)%nat
              DocumentDrag.Redecorate]
  /\ (forall ms, (ms < 50)%nat ->
        DocumentDrag.rebuilds (DocumentDrag.step client s1 (DocumentDrag.Elapse ms)) =
        DocumentDrag.rebuilds s
        /\ DocumentDrag.decorations
             (DocumentDrag.step client s1 (DocumentDrag.Elapse ms)) =
           DocumentDrag.decorations s)
  /\ (forall ms, (50 <= ms)%nat ->
        DocumentDrag.rebuilds (DocumentDrag.step client s1 (DocumentDrag.Elapse ms)) =
        S (DocumentDrag.rebuilds s)
        /\ DocumentDrag.decorations
             (DocumentDrag.step client s1 (DocumentDrag.Elapse ms)) =
           fst (createLatexDecorations (DocumentDrag.view s) client)
        /\ DocumentDrag.timers
             (DocumentDrag.step client s1 (DocumentDrag.Elapse ms)) = []).
Proof.
  intros Hl Hd Ht Hty s1.
  assert (s1 = DocumentDrag.setTimeout_50 (DocumentDrag.set_isDragging false s))
    as Hs1.
  { unfold s1. simpl. rewrite (DocumentDrag_dispatch_installed _ _ Hl).
    destruct Hty as [-> | ->]; simpl; now rewrite Hd. }
  clearbody s1. subst s1.
  assert (DocumentDrag.timers
            (DocumentDrag.setTimeout_50 (DocumentDrag.set_isDragging false s)) =
          [mkTimer (DocumentDrag.nextTimer s) (DocumentDrag.now s + 50)%nat
                   DocumentDrag.Redecorate]) as Htm.
  { unfold DocumentDrag.setTimeout_50, DocumentDrag.set_isDragging.
    cbn [DocumentDrag.timers DocumentDrag.nextTimer DocumentDrag.now].
    now rewrite Ht. }
  split; [reflexivity|]. split; [reflexivity|]. split; [reflexivity|].
  split; [exact Htm|].
  split.
  - intros ms Hms. cbn [DocumentDrag.step]. unfold DocumentDrag.elapse.
    rewrite Htm. cbn [List.filter]. unfold is_due. cbn [due].
    change (DocumentDrag.now (DocumentDrag.setTimeout_50
              (DocumentDrag.set_isDragging false s)))
      with (DocumentDrag.now s).
    assert (Nat.leb (DocumentDrag.now s + 50) (DocumentDrag.now s + ms) = false)
      as -> by (apply Nat.leb_gt; lia).
    split; reflexivity.
  - intros ms Hms. cbn [DocumentDrag.step]. unfold DocumentDrag.elapse.
    rewrite Htm. cbn [List.filter]. unfold is_due. cbn [due].
    change (DocumentDrag.now (DocumentDrag.setTimeout_50
              (DocumentDrag.set_isDragging false s)))
      with (DocumentDrag.now s).
    assert (Nat.leb (DocumentDrag.now s + 50) (DocumentDrag.now s + ms) = true)
      as -> by (apply Nat.leb_le; lia).
    cbn [negb map callback fold_left DocumentDrag.run_callback].
    match goal with
    | |- context [DocumentDrag.rebuild client ?v ?x] =>
        destruct (DocumentDrag_rebuild_fields v x) as (H1 & _ & _ & _ & _ & H2 & H3)
    end.
    repeat split; assumption.
Qed.

End DocumentDragFacts.

(** ** The claims about the view controller *)

(** C4 fails as stated for the document revision: it keeps no timer
    handle, so two drags that end within 50 ms of each other leave two
    rebuild timers pending for the one view. *)
Lemma C4_counterexample :
  length (DocumentDrag.timers
            (DocumentDrag.run sample_client
               (DocumentDrag.constructor sample_client (euler_view 0))
               two_clicks)) = 2%nat
  /\ ~ (forall es,
          (length (DocumentDrag.timers
                     (DocumentDrag.run sample_client
                        (DocumentDrag.constructor sample_client (euler_view 0))
                        es)) <= 1)%nat).
Proof.
  split; [reflexivity|].
  intros H. specialize (H two_clicks). vm_compute in H. lia.
Qed.

(** C4, amended.  In both controllers, while the drag flag is set an
    update that only sets the selection (no change of document, viewport
    or tree) leaves the exposed decorations as they are.  In the document
    revision the end of a drag (mouse up or touch end, no other timer
    pending) sets one 50 ms timer, and the decorations are rebuilt exactly
    once, when that delay has passed; earlier timers are not cancelled.
    In [latex.ts] scheduling the drag end cancels the pending timer and
    puts the new one in its place, so that at most one timer is pending
    at any time. *)
Theorem C4_rebuilds_are_suspended_while_dragging (client : Client) :
  (forall s u,
     DocumentDrag.isDragging s = true ->
     docChanged u = false -> viewportChanged u = false -> treeChanged u = false ->
     DocumentDrag.decorations (DocumentDrag.step client s (DocumentDrag.Update u)) =
     DocumentDrag.decorations s)
  /\ (forall s u,
        ViewDrag.isDragging s = true ->
        selectionSet u = true -> docChanged u = false ->
        ViewDrag.decorations (ViewDrag.step client s (ViewDrag.Update u)) =
        ViewDrag.decorations s)
  /\ (forall s type,
        DocumentDrag.documentListeners s = DocumentDrag.installed ->
        DocumentDrag.isDragging s = true ->
        DocumentDrag.timers s = [] ->
        type = mouseup \/ type = touchend ->
        DocumentDrag.timers (DocumentDrag.step client s (DocumentDrag.Document type)) =
        [mkTimer (DocumentDrag.nextTimer s) (DocumentDrag.now s + 50)%nat
                 DocumentDrag.Redecorate]
        /\ DocumentDrag.rebuilds
             (DocumentDrag.step client s (DocumentDrag.Document type)) =
           DocumentDrag.rebuilds s
        /\ (forall ms, (ms < 50)%nat ->
              DocumentDrag.rebuilds
                (DocumentDrag.run client s
                   [DocumentDrag.Document type; DocumentDrag.Elapse ms]) =
              DocumentDrag.rebuilds s)
        /\ (forall ms, (50 <= ms)%nat ->
              DocumentDrag.rebuilds
                (DocumentDrag.run client s
                   [DocumentDrag.Document type; DocumentDrag.Elapse ms]) =
              S (DocumentDrag.rebuilds s)
              /\ DocumentDrag.decorations
                   (DocumentDrag.run client s
                      [DocumentDrag.Document type; DocumentDrag.Elapse ms]) =
                 fst (createLatexDecorations (DocumentDrag.view s) client)
              /\ DocumentDrag.timers
                   (DocumentDrag.run client s
                      [DocumentDrag.Document type; DocumentDrag.Elapse ms]) = []))
  /\ (forall v es,
        ViewDrag.timers
          (ViewDrag.handleDragEnd
             (ViewDrag.run client (ViewDrag.constructor client v) es)) =
        [mkTimer
           (ViewDrag.nextTimer (ViewDrag.run client (ViewDrag.constructor client v) es))
           (ViewDrag.now (ViewDrag.run client (ViewDrag.constructor client v) es) + 200)%nat
           ViewDrag.DragEnded])
  /\ (forall v es,
        (length (ViewDrag.timers
                   (ViewDrag.run client (ViewDrag.constructor client v) es)) <= 1)%nat).
Proof.
  split; [|split; [|split; [|split]]].
  - intros s u Hd Hc Hv Ht.
    now destruct (DocumentDrag_update_while_dragging client s u Hd Hc Hv Ht).
  - intros s u Hd Hs Hc.
    now destruct (ViewDrag_update_while_dragging client s u Hd Hs Hc).
  - intros s type Hl Hd Ht Hty.
    destruct (DocumentDrag_drag_end client s type Hl Hd Ht Hty)
      as (_ & _ & H3 & H4 & H5 & H6).
    split; [exact H4|]. split; [exact H3|]. split.
    + intros ms Hms. now destruct (H5 ms Hms).
    + intros ms Hms. exact (H6 ms Hms).
  - intros v es. apply ViewDrag_handleDragEnd_timers.
    apply ViewDrag_run_ok, ViewDrag_constructor_ok.
  - intros v es. apply ViewDrag_one_pending_timer.
Qed.

Lemma C4_witness :
  DocumentDrag.decorations
    (DocumentDrag.step sample_client document_dragging
       (DocumentDrag.Update (selection_update (euler_view 25)))) =
  DocumentDrag.decorations document_dragging
  /\ ViewDrag.decorations
       (ViewDrag.step sample_client view_dragging
          (ViewDrag.Update (selection_update (euler_view 25)))) =
     ViewDrag.decorations view_dragging
  /\ DocumentDrag.rebuilds
       (DocumentDrag.run sample_client document_dragging
          [DocumentDrag.Document mouseup; DocumentDrag.Elapse 50]) =
     S (DocumentDrag.rebuilds document_dragging).
Proof.
  destruct (C4_rebuilds_are_suspended_while_dragging sample_client)
    as (H1 & H2 & H3 & _).
  split; [|split].
  - exact (H1 document_dragging (selection_update (euler_view 25))
              eq_refl eq_refl eq_refl eq_refl).
  - exact (H2 view_dragging (selection_update (euler_view 25))
              eq_refl eq_refl eq_refl).
  - destruct (H3 document_dragging mouseup eq_refl eq_refl eq_refl
                 (or_introl eq_refl)) as (_ & _ & _ & H).
    destruct (H 50%nat (le_n 50)) as (Hr & _). exact Hr.
Defined.

(** C8 fails as stated for either controller: in [latex.ts] a pointer
    down clears the drag flag instead of setting it (and touch events are
    not listened to), and in the document revision a pointer leaving
    while the flag is set changes nothing. *)
Lemma C8_counterexample :
  ViewDrag.isDragging (ViewDrag.constructor sample_client (euler_view 0)) = false
  /\ ViewDrag.isDragging
       (ViewDrag.step sample_client
          (ViewDrag.constructor sample_client (euler_view 0))
          (ViewDrag.Dom mousedown 1)) = false
  /\ ViewDrag.isDragging
       (ViewDrag.step sample_client
          (ViewDrag.constructor sample_client (euler_view 0))
          (ViewDrag.Dom touchstart 0)) = false
  /\ DocumentDrag.isDragging
       (DocumentDrag.run sample_client
          (DocumentDrag.constructor sample_client (euler_view 0))
          [DocumentDrag.Document mousedown; DocumentDrag.Document mouseleave]) = true
  /\ DocumentDrag.timers
       (DocumentDrag.run sample_client
          (DocumentDrag.constructor sample_client (euler_view 0))
          [DocumentDrag.Document mousedown; DocumentDrag.Document mouseleave]) = [].
Proof. repeat split. Qed.

(** C8, amended.  In the document revision every mouse down or touch
    start on the document sets the drag flag and every mouse up or touch
    end clears it; a pointer leaving is not listened to.  In [latex.ts] a
    mouse down clears the flag, a mouse move with a button held sets it,
    touch events are not listened to, and a mouse up or a mouse leave
    while the flag is set schedules the end of the drag: one timer, and
    once its 200 ms have passed the flag is clear, so the tracker does not
    stay in the dragging state after the pointer has left. *)
Theorem C8_drag_state_transitions (client : Client) :
  (forall s,
     DocumentDrag.documentListeners s = DocumentDrag.installed ->
     DocumentDrag.isDragging
       (DocumentDrag.step client s (DocumentDrag.Document mousedown)) = true
     /\ DocumentDrag.isDragging
          (DocumentDrag.step client s (DocumentDrag.Document touchstart)) = true
     /\ DocumentDrag.isDragging
          (DocumentDrag.step client s (DocumentDrag.Document mouseup)) = false
     /\ DocumentDrag.isDragging
          (DocumentDrag.step client s (DocumentDrag.Document touchend)) = false
     /\ DocumentDrag.step client s (DocumentDrag.Document mouseleave) = s)
  /\ (forall s buttons,
        ViewDrag.isDragging
          (ViewDrag.step client s (ViewDrag.Dom mousedown buttons)) = false
        /\ ViewDrag.step client s (ViewDrag.Dom touchstart buttons) = s
        /\ ViewDrag.step client s (ViewDrag.Dom touchend buttons) = s)
  /\ (forall s buttons,
        buttons <> 0 ->
        ViewDrag.isDragging
          (ViewDrag.step client s (ViewDrag.Dom mousemove buttons)) = true)
  /\ (forall v es type buttons ms,
        type = mouseup \/ type = mouseleave ->
        ViewDrag.isDragging
          (ViewDrag.run client (ViewDrag.constructor client v) es) = true ->
        (200 <= ms)%nat ->
        length (ViewDrag.timers
                  (ViewDrag.run client (ViewDrag.constructor client v)
                     (es ++ [ViewDrag.Dom type buttons]))) = 1%nat
        /\ ViewDrag.isDragging
             (ViewDrag.run client (ViewDrag.constructor client v)
                (es ++ [ViewDrag.Dom type buttons; ViewDrag.Elapse ms])) = false).
Proof.
  split; [|split; [|split]].
  - intros s Hl. simpl.
    rewrite !(DocumentDrag_dispatch_installed _ _ Hl). simpl.
    destruct (DocumentDrag.isDragging s) eqn:Hd; repeat split;
      reflexivity || exact Hd.
  - intros s buttons. repeat split.
  - intros s buttons Hb. simpl.
    apply Z.eqb_neq in Hb. now rewrite Hb.
  - intros v es type buttons ms Hty Hd Hms.
    unfold ViewDrag.run in *. rewrite !fold_left_app.
    set (s := fold_left (ViewDrag.step client) es (ViewDrag.constructor client v)) in *.
    assert (single_timer s) as Hok
      by (apply (ViewDrag_run_ok client es), ViewDrag_constructor_ok).
    assert (ViewDrag.step client s (ViewDrag.Dom type buttons) =
            ViewDrag.handleDragEnd s) as Hstep
      by (destruct Hty as [-> | ->]; simpl; now rewrite Hd).
    destruct (ViewDrag_drag_end s Hok) as (Ht & _ & _ & Hlate).
    cbn [fold_left]. rewrite Hstep. split.
    + now rewrite Ht.
    + cbn [ViewDrag.step]. now destruct (Hlate ms Hms).
Qed.

Lemma C8_witness :
  DocumentDrag.isDragging
    (DocumentDrag.step sample_client
       (DocumentDrag.constructor sample_client (euler_view 0))
       (DocumentDrag.Document mousedown)) = true
  /\ ViewDrag.isDragging
       (ViewDrag.step sample_client
          (ViewDrag.constructor sample_client (euler_view 0))
          (ViewDrag.Dom mousemove 1)) = true
  /\ ViewDrag.isDragging
       (ViewDrag.run sample_client
          (ViewDrag.constructor sample_client (euler_view 0))
          ([ViewDrag.Dom mousemove 1] ++
           [ViewDrag.Dom mouseleave 1; ViewDrag.Elapse 200])) = false.
Proof.
  destruct (C8_drag_state_transitions sample_client) as (H1 & _ & H3 & H4).
  split; [|split].
  - destruct (H1 (DocumentDrag.constructor sample_client (euler_view 0)) eq_refl)
      as (H & _).
    exact H.
  - apply H3. discriminate.
  - destruct (H4 (euler_view 0) [ViewDrag.Dom mousemove 1] mouseleave 1 200%nat
                 (or_intror eq_refl) eq_refl (le_n 200)) as (_ & H).
    exact H.
Defined.

(** C9 fails as stated: [destroy] has no timer to clear, so a rebuild
    scheduled before the view was disposed of still runs afterwards. *)
Lemma C9_counterexample :
  length (DocumentDrag.timers
            (DocumentDrag.run sample_client
               (DocumentDrag.constructor sample_client (euler_view 0))
               [DocumentDrag.Document mousedown; DocumentDrag.Document mouseup;
                DocumentDrag.Destroy])) = 1%nat
  /\ DocumentDrag.destroyed
       (DocumentDrag.run sample_client
          (DocumentDrag.constructor sample_client (euler_view 0))
          click_then_destroy) = true
  /\ DocumentDrag.rebuildsAfterDestroy
       (DocumentDrag.run sample_client
          (DocumentDrag.constructor sample_client (euler_view 0))
          click_then_destroy) = 1%nat.
Proof. repeat split. Qed.

(** C9, amended.  Disposing of the view controller removes the four
    listeners it added to the document, so that afterwards no event on
    the document reaches it (none changes the drag flag or sets a timer);
    the pending timers are left as they are. *)
Theorem C9_destroy_removes_the_listeners
    (client : Client) (v : EditorView) (es : list DocumentDrag.Event) :
  DocumentDrag.documentListeners (DocumentDrag.constructor client v) =
  DocumentDrag.installed
  /\ DocumentDrag.documentListeners
       (DocumentDrag.run client (DocumentDrag.constructor client v)
          (es ++ [DocumentDrag.Destroy])) = []
  /\ (forall type,
        DocumentDrag.run client (DocumentDrag.constructor client v)
          (es ++ [DocumentDrag.Destroy; DocumentDrag.Document type]) =
        DocumentDrag.run client (DocumentDrag.constructor client v)
          (es ++ [DocumentDrag.Destroy]))
  /\ DocumentDrag.timers
       (DocumentDrag.run client (DocumentDrag.constructor client v)
          (es ++ [DocumentDrag.Destroy])) =
     DocumentDrag.timers
       (DocumentDrag.run client (DocumentDrag.constructor client v) es).
Proof.
  destruct (DocumentDrag_constructor_ok client v) as [Hok Hinst].
  split; [exact Hinst|].
  unfold DocumentDrag.run. rewrite !fold_left_app.
  pose proof (DocumentDrag_run_ok client es _ Hok) as Hs.
  unfold DocumentDrag.run in Hs.
  set (s := fold_left (DocumentDrag.step client) es
              (DocumentDrag.constructor client v)) in *.
  destruct (DocumentDrag_destroy s Hs) as (Hl & Ht & _).
  cbn [fold_left DocumentDrag.step]. split; [exact Hl|]. split; [|exact Ht].
  intros type. rewrite fold_left_app. fold s. cbn [fold_left DocumentDrag.step].
  now apply DocumentDrag_dispatch_removed.
Qed.

(** ** More on the decoration builder *)

Lemma in_visited (view : EditorView) (node : SyntaxNode) :
  In node (visited view) <->
  exists from to,
    In (from, to) (visibleRanges view)
    /\ In node (tree_nodes (syntaxTree (state view)))
    /\ node_from node <= to /\ from <= node_to node.
Proof.
  unfold visited. rewrite in_flat_map. split.
  - intros ([from to] & Hr & Hn). unfold iterate in Hn.
    apply filter_In in Hn as [Hn Hb]. apply andb_true_iff in Hb as [H1 H2].
    apply Z.leb_le in H1, H2. exists from, to. repeat split; assumption.
  - intros (from & to & Hr & Hn & H1 & H2). exists (from, to).
    split; [exact Hr|]. unfold iterate. apply filter_In. split; [exact Hn|].
    apply andb_true_iff. split; now apply Z.leb_le.
Qed.

(** Whatever is in the set handed to the editor replaces a formula node
    of the tree that touches a visible range, over exactly the range of
    that node, and neither the cursor nor a selection range touches it. *)
Theorem exposed_decorations_are_sound
    (view : EditorView) (client : Client) (d : DecoRange) :
  In d (fst (createLatexDecorations view client)) ->
  exists node from to,
    In (from, to) (visibleRanges view)
    /\ In node (tree_nodes (syntaxTree (state view)))
    /\ node_from node <= to /\ from <= node_to node
    /\ (name node = "InlineLatex" \/ name node = "DisplayLatex")
    /\ deco_from d = node_from node /\ deco_to d = node_to node
    /\ ~ live (selection (state view)) (deco_from d) (deco_to d).
Proof.
  intros Hin.
  apply (Permutation_in _ (createLatexDecorations_perm view client)) in Hin.
  apply in_flat_map in Hin as (node & Hv & Hd).
  apply in_visited in Hv as (from & to & Hr & Hn & H1 & H2).
  exists node, from, to. repeat (split; [assumption|]).
  assert (touched view (node_from node) (node_to node) = false) as Ht.
  { destruct (touched view (node_from node) (node_to node)) eqn:E; [|reflexivity].
    rewrite (decorations_of_touched _ _ _ E) in Hd. destruct Hd. }
  apply touched_not_live in Ht.
  destruct (String.eqb_spec (name node) "InlineLatex") as [E1|N1].
  - pose proof (in_decorations_of_inline _ _ _ _ E1 Hd) as ->. simpl.
    split; [now left|]. repeat split; assumption.
  - destruct (String.eqb_spec (name node) "DisplayLatex") as [E2|N2].
    + destruct (in_decorations_of_display _ _ _ _ E2 Hd) as (f & _ & ->). simpl.
      split; [now right|]. repeat split; assumption.
    + rewrite (decorations_of_other _ _ _ N1 N2) in Hd. destruct Hd.
Qed.

Lemma exposed_decorations_are_sound_witness :
  exists node from to,
    In (from, to) (visibleRanges (euler_view 0))
    /\ In node (tree_nodes (syntaxTree (state (euler_view 0))))
    /\ node_from node <= to /\ from <= node_to node
    /\ (name node = "InlineLatex" \/ name node = "DisplayLatex")
    /\ 18 = node_from node /\ 32 = node_to node
    /\ ~ live (selection (state (euler_view 0))) 18 32.
Proof.
  exact (exposed_decorations_are_sound (euler_view 0) sample_client
           (inline_decoration sample_client 18 32 "e^{i\pi}+1=0")
           (or_introl eq_refl)).
Defined.

Lemma isNodeInSelection_logs_no_failure (sels : list SelectionRange)
    (from to : Z) :
  List.filter is_failure (snd (isNodeInSelection sels from to)) = [].
Proof.
  induction sels as [|r sels IH]; simpl; [reflexivity|].
  destruct ((range_from r <? to) && (range_to r >? from)); [reflexivity | exact IH].
Qed.

Lemma enter_counts (view : EditorView) (client : Client) (b : Builder)
    (node : SyntaxNode) :
  counts_agree b -> counts_agree (enter view client b node).
Proof.
  intros [Hi Hd]. unfold counts_agree, enter.
  pose proof (isNodeInSelection_logs_no_failure
                (ranges (selection (state view))) (node_from node) (node_to node))
    as Hlog.
  destruct (str_eqb (name node) "InlineLatex").
  - destruct (isNodeInSelection _ _ _) as [sel logged]. simpl in Hlog.
    destruct (negb _ && negb sel); simpl;
      rewrite ?List.filter_app, ?length_app, Hlog; simpl; lia.
  - destruct (str_eqb (name node) "DisplayLatex"); [|now split].
    destruct (isNodeInSelection _ _ _) as [sel logged]. simpl in Hlog.
    destruct (negb _ && negb sel); simpl.
    + destruct (display_regex_exec _); simpl;
        rewrite ?List.filter_app, ?length_app, Hlog; simpl; lia.
    + rewrite ?List.filter_app, ?length_app, Hlog; simpl; lia.
Qed.

Lemma walk_counts (view : EditorView) (client : Client) :
  counts_agree (walk view client).
Proof.
  unfold walk.
  assert (counts_agree new_builder) as H0 by (split; reflexivity).
  revert H0. generalize new_builder.
  induction (visibleRanges view) as [|[from to] rs IH]; intros b Hb; simpl;
    [exact Hb|].
  apply IH. revert b Hb.
  induction (iterate (syntaxTree (state view)) from to) as [|n ns IHn];
    intros b Hb; simpl; [exact Hb|].
  apply IHn. now apply enter_counts.
Qed.

(** The last line the builder logs tells the truth about the set it
    returns: the inline count is the number of inline widgets in the
    set; the display count is the number of display widgets in the set
    plus the number of display nodes whose text did not match (each of
    which was logged as a failure). *)
Theorem logged_counts_match_the_set (view : EditorView) (client : Client) :
  exists logged,
    snd (createLatexDecorations view client) =
    logged ++
    [LogCreated
       (length (List.filter is_inline (fst (createLatexDecorations view client))))
       (length (List.filter is_display (fst (createLatexDecorations view client)))
        + length (List.filter is_failure logged))].
Proof.
  unfold createLatexDecorations. simpl.
  exists (console (walk view client)).
  destruct (walk_counts view client) as [Hi Hd].
  rewrite (filter_length_perm is_inline _ _ (Decoration_set_perm _)).
  rewrite (filter_length_perm is_display _ _ (Decoration_set_perm _)).
  now rewrite <- Hi, <- Hd.
Qed.

Lemma in_perm_cons {A} (x : A) (l : list A) :
  In x l -> exists rest, Permutation l (x :: rest).
Proof.
  intros H. apply in_split in H as (l1 & l2 & ->).
  exists (l1 ++ l2). symmetry. apply Permutation_middle.
Qed.

Lemma flat_map_perm_cons {A B} (f : A -> list B) (x : A) (y : B) (l : list A) :
  In x l -> f x = [y] -> exists rest, Permutation (flat_map f l) (y :: rest).
Proof.
  intros H Hf. apply in_split in H as (l1 & l2 & ->).
  rewrite flat_map_app. simpl. rewrite Hf. simpl.
  exists (flat_map f l1 ++ flat_map f l2). symmetry. apply Permutation_middle.
Qed.

(** The builder does not remove duplicates: an inline node that is not
    live and touches two of the visible ranges is entered for each of
    them, and the set holds its decoration twice. *)
Theorem node_in_two_visible_ranges_is_decorated_twice
    (view : EditorView) (client : Client) (node : SyntaxNode)
    (before between after : list (Z * Z)) (from1 to1 from2 to2 : Z) :
  visibleRanges view = before ++ (from1, to1) :: between ++ (from2, to2) :: after ->
  In node (tree_nodes (syntaxTree (state view))) ->
  name node = "InlineLatex" ->
  node_from node <= to1 -> from1 <= node_to node ->
  node_from node <= to2 -> from2 <= node_to node ->
  ~ live (selection (state view)) (node_from node) (node_to node) ->
  exists rest,
    Permutation (fst (createLatexDecorations view client))
      (inline_decoration client (node_from node) (node_to node)
         (sliceString (doc (state view)) (node_from node + 1) (node_to node - 1))
       :: inline_decoration client (node_from node) (node_to node)
            (sliceString (doc (state view)) (node_from node + 1) (node_to node - 1))
       :: rest).
Proof.
  intros Hr Hn Hname H1 H2 H3 H4 Hlive.
  apply touched_not_live in Hlive.
  pose proof (decorations_of_inline view client node Hname) as Hd.
  rewrite Hlive in Hd.
  assert (forall from to, node_from node <= to -> from <= node_to node ->
            In node (iterate (syntaxTree (state view)) from to)) as Hit.
  { intros from to Ha Hb. unfold iterate. apply filter_In. split; [exact Hn|].
    apply andb_true_iff. split; now apply Z.leb_le. }
  set (g := fun '(from, to) => iterate (syntaxTree (state view)) from to).
  assert (visited view =
          flat_map g (before ++ [(from1, to1)] ++ between)
          ++ flat_map g ((from2, to2) :: after)) as Hv.
  { unfold visited. fold g. rewrite Hr, <- flat_map_app.
    f_equal. now rewrite <- !app_assoc. }
  assert (In node (flat_map g (before ++ [(from1, to1)] ++ between))) as Hin1.
  { apply in_flat_map. exists (from1, to1). split; [|now apply Hit].
    apply in_or_app. right. now left. }
  assert (In node (flat_map g ((from2, to2) :: after))) as Hin2.
  { apply in_flat_map. exists (from2, to2). split; [now left | now apply Hit]. }
  destruct (flat_map_perm_cons (decorations_of view client) node _ _ Hin1 Hd)
    as (rest1 & Hp1).
  destruct (flat_map_perm_cons (decorations_of view client) node _ _ Hin2 Hd)
    as (rest2 & Hp2).
  exists (rest1 ++ rest2).
  rewrite createLatexDecorations_perm, Hv, flat_map_app, Hp1, Hp2.
  simpl. constructor. symmetry. apply Permutation_middle.
Qed.

Lemma node_in_two_visible_ranges_is_decorated_twice_witness :
  exists rest,
    Permutation (fst (createLatexDecorations split_view sample_client))
      (inline_decoration sample_client (node_from euler_node) (node_to euler_node)
         (sliceString (doc (state split_view)) (node_from euler_node + 1)
                      (node_to euler_node - 1))
       :: inline_decoration sample_client (node_from euler_node)
            (node_to euler_node)
            (sliceString (doc (state split_view)) (node_from euler_node + 1)
                         (node_to euler_node - 1))
       :: rest).
Proof.
  apply (node_in_two_visible_ranges_is_decorated_twice split_view sample_client
           euler_node [] [] [] 0 20 25 33).
  - reflexivity.
  - right. left. reflexivity.
  - reflexivity.
  - simpl. lia.
  - simpl. lia.
  - simpl. lia.
  - simpl. lia.
  - apply touched_not_live. reflexivity.
Defined.

(** ** More on the widgets *)

Lemma substring_tail (s : string) (n m : nat) (c : ascii) (r : string) :
  String.substring n (S m) s = String c r -> String.substring (S n) m s = r.
Proof.
  revert n. induction s as [|x s IH]; intros n H.
  - destruct n; discriminate H.
  - destruct n as [|n]; simpl in *.
    + injection H as _ H. exact H.
    + apply IH. exact H.
Qed.

Lemma substring_prefix (s : string) (n m : nat) (r t : string) :
  String.substring n m s = r +:+ t ->
  String.substring n (String.length r) s = r.
Proof.
  revert n m r. induction s as [|x s IH]; intros n m r H.
  - assert (r = "") as ->.
    { destruct n, m; simpl in H; destruct r; try reflexivity;
        rewrite append_cons in H; discriminate H. }
    destruct n; reflexivity.
  - destruct n as [|n]; simpl in H.
    + destruct r as [|c r]; [reflexivity|].
      rewrite append_cons in H. destruct m as [|m]; [discriminate H|].
      injection H as -> H. simpl. f_equal. exact (IH 0%nat m r H).
    + simpl. exact (IH n m r H).
Qed.

Lemma substring_length_exact (s : string) (n m : nat) :
  (n + m <= String.length s)%nat ->
  String.length (String.substring n m s) = m.
Proof.
  revert n m. induction s as [|x s IH]; intros n m H; simpl in H.
  - assert (n = 0 /\ m = 0)%nat as [-> ->] by lia. reflexivity.
  - destruct n as [|n]; simpl.
    + destruct m as [|m]; [reflexivity|]. simpl. f_equal. apply (IH 0%nat). lia.
    + apply IH. lia.
Qed.

(** Inside the document, the slice without its first and last code unit
    is what stands between them. *)
Lemma sliceString_inner (d : string) (from to : Z) (c1 c2 : ascii) (f : string) :
  0 <= from -> to <= Z.of_nat (String.length d) ->
  sliceString d from to = String c1 (f +:+ String c2 "") ->
  sliceString d (from + 1) (to - 1) = f.
Proof.
  intros Hfrom Hto Htext.
  pose proof (sliceString_length d from to) as Hlen.
  rewrite Htext in Hlen. simpl in Hlen. rewrite length_append in Hlen.
  simpl in Hlen.
  unfold sliceString in *.
  set (len := Z.of_nat (String.length d)) in *.
  replace (Z.max 0 (Z.min len from)) with from in Htext by lia.
  replace (Z.max from (Z.min len to)) with to in Htext by lia.
  replace (Z.max 0 (Z.min len (from + 1))) with (from + 1) by lia.
  replace (Z.max (from + 1) (Z.min len (to - 1))) with (to - 1) by lia.
  assert (String.length (String.substring (Z.to_nat from) (Z.to_nat (to - from)) d)
          = Z.to_nat (to - from)) as Hexact
    by (apply substring_length_exact; unfold len in *; lia).
  rewrite Htext in Hexact. simpl in Hexact. rewrite length_append in Hexact.
  simpl in Hexact.
  replace (Z.to_nat (to - from)) with (S (S (String.length f))) in Htext by lia.
  apply substring_tail in Htext. apply substring_prefix in Htext.
  replace (Z.to_nat (from + 1)) with (S (Z.to_nat from)) by lia.
  replace (Z.to_nat (to - 1 - (from + 1))) with (String.length f) by lia.
  exact Htext.
Qed.

Lemma inline_decoration_of_dollars
    (view : EditorView) (client : Client) (node : SyntaxNode)
    (formula : string) (d : DecoRange) :
  name node = "InlineLatex" ->
  0 <= node_from node ->
  node_to node <= Z.of_nat (String.length (doc (state view))) ->
  node_text view node = "$" +:+ formula +:+ "$" ->
  In d (decorations_of view client node) ->
  d = inline_decoration client (node_from node) (node_to node) formula.
Proof.
  intros Hname Hfrom Hto Htext Hin.
  pose proof (in_decorations_of_inline _ _ _ _ Hname Hin) as ->.
  f_equal. f_equal. f_equal. f_equal.
  apply (sliceString_inner _ _ _ "$" "$"); [exact Hfrom | exact Hto|].
  exact Htext.
Qed.

(** When an inline node lies inside the document and its text is a
    formula between two dollars, the widget's formula is that formula:
    the builder strips the delimiters and nothing else, and the raw text
    of the widget is the text of the node again. *)
Theorem inline_formula_strips_the_delimiters
    (view : EditorView) (client : Client) (node : SyntaxNode)
    (formula : string) (d : DecoRange) :
  name node = "InlineLatex" ->
  0 <= node_from node ->
  node_to node <= Z.of_nat (String.length (doc (state view))) ->
  node_text view node = "$" +:+ formula +:+ "$" ->
  In d (decorations_of view client node) ->
  widget_formula (widget (deco d)) = formula
  /\ raw_text (widget (deco d)) = node_text view node.
Proof.
  intros Hname Hfrom Hto Htext Hin.
  rewrite (inline_decoration_of_dollars _ _ _ _ _ Hname Hfrom Hto Htext Hin).
  simpl. split; [reflexivity | now rewrite Htext].
Qed.

Lemma inline_formula_strips_the_delimiters_witness :
  widget_formula
    (widget (deco (inline_decoration sample_client 18 32 "e^{i\pi}+1=0"))) =
  "e^{i\pi}+1=0"
  /\ raw_text
       (widget (deco (inline_decoration sample_client 18 32 "e^{i\pi}+1=0"))) =
     node_text (euler_view 0) euler_node.
Proof.
  apply (inline_formula_strips_the_delimiters (euler_view 0) sample_client
           euler_node "e^{i\pi}+1=0").
  - reflexivity.
  - simpl. lia.
  - simpl. lia.
  - reflexivity.
  - left. reflexivity.
Defined.

Lemma lookup_at_length {A} (h l : list A) (e : A) :
  (h ++ e :: l) !! length h = Some e.
Proof.
  replace (length h) with (length h + 0)%nat by lia. now rewrite lookup_after.
Qed.

(** When the typesetter throws, the wrapper shows the source text of the
    span the widget replaces: always for a display span, and for an
    inline span that lies inside the document and is written between two
    dollars. *)
Theorem fallback_shows_the_source_text
    (view : EditorView) (client : Client) (node : SyntaxNode) (d : DecoRange)
    (katex_impl : string -> bool -> list DomNode -> list DomNode * option string)
    (w : World) (error : string) :
  In d (decorations_of view client node) ->
  (name node = "InlineLatex" ->
   0 <= node_from node
   /\ node_to node <= Z.of_nat (String.length (doc (state view)))
   /\ exists formula, node_text view node = "$" +:+ formula +:+ "$") ->
  snd (katex_impl (widget_formula (widget (deco d)))
                  (widget_displayMode (widget (deco d))) []) = Some error ->
  exists w' element,
    toDOM katex_impl (widget (deco d)) w = (Normal (length (heap w)), w')
    /\ heap w' !! length (heap w) = Some element
    /\ childNodes element = [Text (node_text view node)].
Proof.
  intros Hin Hwf Hthrow.
  destruct (String.eqb_spec (name node) "InlineLatex") as [E1|N1].
  - destruct (Hwf E1) as (Hfrom & Hto & formula & Htext).
    pose proof (inline_decoration_of_dollars _ _ _ _ _ E1 Hfrom Hto Htext Hin)
      as Hd.
    rewrite Hd in Hthrow |- *. simpl in *.
    rewrite InlineLatexWidget_toDOM_eval. simpl.
    destruct (katex_impl _ _ _) as [kids thrown]. simpl in Hthrow. subst thrown.
    eexists. eexists. split; [reflexivity|]. split; [apply lookup_last|].
    simpl. now rewrite Htext.
  - destruct (String.eqb_spec (name node) "DisplayLatex") as [E2|N2].
    + destruct (in_decorations_of_display _ _ _ _ E2 Hin) as (f & Hm & Hd).
      apply display_regex_exec_spec in Hm.
      rewrite Hd in Hthrow |- *. simpl in *.
      rewrite DisplayLatexWidget_toDOM_eval. simpl.
      destruct (katex_impl _ _ _) as [kids thrown]. simpl in Hthrow. subst thrown.
      eexists. eexists. split; [reflexivity|]. split.
      * apply lookup_at_length.
      * simpl. now rewrite Hm.
    + rewrite (decorations_of_other _ _ _ N1 N2) in Hin. destruct Hin.
Qed.

Lemma fallback_shows_the_source_text_witness :
  exists w' element,
    toDOM strict_katex
      (widget (deco (inline_decoration sample_client 2 11 "\frac{1")))
      empty_world = (Normal (length (heap empty_world)), w')
    /\ heap w' !! length (heap empty_world) = Some element
    /\ childNodes element = [Text (node_text unbalanced_view unbalanced_node)].
Proof.
  apply (fallback_shows_the_source_text unbalanced_view sample_client
           unbalanced_node
           (inline_decoration sample_client 2 11 "\frac{1")
           strict_katex empty_world "ParseError").
  - left. reflexivity.
  - intros _. split; [simpl; lia|]. split; [simpl; lia|].
    exists "\frac{1". reflexivity.
  - reflexivity.
Defined.

(** A click on a rendered widget, whether the typesetter had thrown or
    not: the event is marked handled (default prevented, propagation
    stopped), and the client, when it has a sink, receives exactly one
    edit-intent event with the widget's offset, the current page and the
    modifier keys of the click. *)
Theorem click_on_a_widget
    (katex_impl : string -> bool -> list DomNode -> list DomNode * option string)
    (widget : WidgetType) (w : World) (e : MouseEvent) :
  exists w',
    toDOM katex_impl widget w = (Normal (length (heap w)), w')
    /\ click w' (length (heap w)) e =
       (mkMouseEvent (metaKey e) (ctrlKey e) (altKey e) true true,
        (if has_dispatchClickEvent (widget_client widget)
         then [mkClickEvent (widget_pos widget)
                            (currentPage (widget_client widget))
                            (metaKey e) (ctrlKey e) (altKey e)]
         else []),
        match widget with
        | InlineW _ => []
        | DisplayW this => [LogDisplayClicked (display_pos this)]
        end).
Proof.
  destruct widget as [this|this]; simpl.
  - rewrite InlineLatexWidget_toDOM_eval.
    destruct (katex_impl _ _ _) as [kids [error|]]; eexists;
      (split; [reflexivity|]); unfold click; simpl; rewrite lookup_last; simpl;
      destruct (has_dispatchClickEvent _); reflexivity.
  - rewrite DisplayLatexWidget_toDOM_eval.
    destruct (katex_impl _ _ _) as [kids [error|]]; eexists;
      (split; [reflexivity|]); unfold click; simpl;
      rewrite lookup_at_length; simpl;
      destruct (has_dispatchClickEvent _); reflexivity.
Qed.

(** Click to edit: once the main cursor stands at the offset a widget
    hands to the client, the span the widget replaced is live, so the
    next rebuild leaves it undecorated, whatever else the new view
    holds. *)
Theorem click_target_reveals_the_source
    (view view' : EditorView) (client client' : Client) (node : SyntaxNode)
    (d : DecoRange) :
  In d (decorations_of view client node) ->
  (name node = "InlineLatex" -> node_from node < node_to node) ->
  head (main (selection (state view'))) = widget_pos (widget (deco d)) ->
  touched view' (node_from node) (node_to node) = true
  /\ decorations_of view' client' node = [].
Proof.
  intros Hin Hne Hhead.
  assert (node_from node <= widget_pos (widget (deco d)) <= node_to node) as Hpos.
  { destruct (String.eqb_spec (name node) "InlineLatex") as [E1|N1].
    - pose proof (in_decorations_of_inline _ _ _ _ E1 Hin) as ->. simpl.
      specialize (Hne E1). lia.
    - destruct (String.eqb_spec (name node) "DisplayLatex") as [E2|N2].
      + destruct (in_decorations_of_display _ _ _ _ E2 Hin) as (f & Hm & ->).
        simpl. pose proof (display_regex_exec_length _ _ Hm) as H4.
        pose proof (sliceString_length (doc (state view)) (node_from node)
                      (node_to node)) as Hlen.
        fold (node_text view node) in Hlen. lia.
      + rewrite (decorations_of_other _ _ _ N1 N2) in Hin. destruct Hin. }
  assert (touched view' (node_from node) (node_to node) = true) as Ht.
  { unfold touched. rewrite Hhead.
    assert (isCursorInside (widget_pos (widget (deco d))) (node_from node)
              (node_to node) = true) as -> by now apply isCursorInside_true.
    reflexivity. }
  split; [exact Ht | now apply decorations_of_touched].
Qed.

Lemma click_target_reveals_the_source_witness :
  touched (euler_view 19) 18 32 = true
  /\ decorations_of (euler_view 19) sample_client euler_node = [].
Proof.
  apply (click_target_reveals_the_source (euler_view 0) (euler_view 19)
           sample_client sample_client euler_node
           (inline_decoration sample_client 18 32 "e^{i\pi}+1=0")).
  - left. reflexivity.
  - intros _. simpl. lia.
  - reflexivity.
Defined.

(** ** More on the two controllers *)

Section DocumentDragTimers.
Variable client : Client.

Lemma DocumentDrag_callbacks_count (cs : list DocumentDrag.Callback)
    (s : DocumentDrag.Plugin) :
  let s' := fold_left (DocumentDrag.run_callback client) cs s in
  DocumentDrag.timers s' = DocumentDrag.timers s
  /\ DocumentDrag.nextTimer s' = DocumentDrag.nextTimer s
  /\ DocumentDrag.now s' = DocumentDrag.now s
  /\ DocumentDrag.updatesRequested s' =
     (DocumentDrag.updatesRequested s + length cs)%nat
  /\ DocumentDrag.rebuilds s' = (DocumentDrag.rebuilds s + length cs)%nat.
Proof.
  revert s. induction cs as [|c cs IH]; intros s; simpl.
  - repeat split; lia.
  - destruct (IH (DocumentDrag.run_callback client s c)) as (H1 & H2 & H3 & H4 & H5).
    destruct c. unfold DocumentDrag.run_callback in *.
    unfold DocumentDrag.rebuild in *.
    destruct (createLatexDecorations (DocumentDrag.view s) client) as [set logged].
    simpl in *. rewrite H1, H2, H3, H4, H5. repeat split; lia.
Qed.

Lemma DocumentDrag_handlers_accounted (hs : list DocumentDrag.Handler)
    (s : DocumentDrag.Plugin) :
  timers_accounted s ->
  timers_accounted (fold_left DocumentDrag.run_handler hs s).
Proof.
  revert s. induction hs as [|h hs IH]; intros s H; [exact H|].
  simpl. apply IH. destruct H as (H1 & H2 & H3).
  unfold timers_accounted.
  destruct h; simpl; try (repeat split; assumption);
    destruct (DocumentDrag.isDragging s); simpl;
    try (repeat split; assumption);
    (split; [rewrite length_app; simpl; lia|]); (split; [exact H2|]);
    intros t Ht; apply in_app_or in Ht as [Ht|[<-|[]]];
    [now apply H3 | simpl; lia | now apply H3 | simpl; lia].
Qed.

Lemma filter_partition_length {A} (f : A -> bool) (l : list A) :
  (length (List.filter f l) + length (List.filter (fun x => negb (f x)) l))%nat
  = length l.
Proof.
  induction l as [|x l IH]; simpl; [reflexivity|].
  destruct (f x); simpl; lia.
Qed.

Lemma DocumentDrag_step_accounted (s : DocumentDrag.Plugin)
    (e : DocumentDrag.Event) :
  timers_accounted s -> timers_accounted (DocumentDrag.step client s e).
Proof.
  intros H. destruct e as [type | u | ms |]; simpl.
  - now apply DocumentDrag_handlers_accounted.
  - destruct H as (H1 & H2 & H3). unfold timers_accounted, DocumentDrag.update.
    simpl.
    destruct (docChanged u || viewportChanged u
              || selectionSet u && negb (DocumentDrag.isDragging s)
              || treeChanged u); [|repeat split; assumption].
    unfold DocumentDrag.rebuild.
    destruct (createLatexDecorations (update_view u) client) as [set logged].
    simpl. split; [exact H1|]. split; [lia | exact H3].
  - destruct H as (H1 & H2 & H3). unfold DocumentDrag.elapse.
    match goal with
    | |- timers_accounted (fold_left _ ?cs ?x) =>
        destruct (DocumentDrag_callbacks_count cs x) as (E1 & E2 & E3 & E4 & E5)
    end.
    unfold timers_accounted. rewrite E1, E2, E3, E4, E5. simpl.
    rewrite length_map.
    pose proof (filter_partition_length
                  (is_due (DocumentDrag.now s + ms)) (DocumentDrag.timers s)) as Hp.
    split; [lia|]. split; [lia|].
    intros t Ht. apply filter_In in Ht as [Ht _]. specialize (H3 t Ht). lia.
  - destruct H as (H1 & H2 & H3). unfold DocumentDrag.destroy. simpl.
    destruct (DocumentDrag.cleanup s); repeat split; assumption.
Qed.

Lemma DocumentDrag_run_accounted (v : EditorView) (es : list DocumentDrag.Event) :
  timers_accounted
    (DocumentDrag.run client (DocumentDrag.constructor client v) es).
Proof.
  assert (timers_accounted (DocumentDrag.constructor client v)) as H0.
  { unfold timers_accounted, DocumentDrag.constructor, DocumentDrag.rebuild.
    destruct (createLatexDecorations v client) as [set logged]. simpl.
    repeat split; [lia | intros t []]. }
  unfold DocumentDrag.run. revert H0.
  generalize (DocumentDrag.constructor client v).
  induction es as [|e es IH]; intros s H; [exact H|].
  simpl. apply IH. now apply DocumentDrag_step_accounted.
Qed.

End DocumentDragTimers.

Lemma all_due_none_kept {C} (n : nat) (l : list (Timer C)) :
  (forall t, In t l -> (due t <= n)%nat) ->
  List.filter (fun t => negb (is_due n t)) l = [].
Proof.
  induction l as [|t l IH]; intros H; [reflexivity|].
  simpl. assert (is_due n t = true) as ->.
  { unfold is_due. apply Nat.leb_le. apply H. now left. }
  simpl. apply IH. intros t' Ht'. apply H. now right.
Qed.

(** In the document revision no drag end is dropped.  Every timer that
    was ever set (their number is [nextTimer - 1]) has either run, with
    one rebuild and one [view.update([])] each, or is still pending; and
    whatever happened before, 50 ms later none is pending. *)
Theorem document_drag_ends_all_rebuild
    (client : Client) (v : EditorView) (es : list DocumentDrag.Event) :
  DocumentDrag.nextTimer
    (DocumentDrag.run client (DocumentDrag.constructor client v) es) =
  S (DocumentDrag.updatesRequested
       (DocumentDrag.run client (DocumentDrag.constructor client v) es)
     + length (DocumentDrag.timers
                 (DocumentDrag.run client (DocumentDrag.constructor client v) es)))
  /\ (S (DocumentDrag.updatesRequested
           (DocumentDrag.run client (DocumentDrag.constructor client v) es))
      <= DocumentDrag.rebuilds
           (DocumentDrag.run client (DocumentDrag.constructor client v) es))%nat
  /\ DocumentDrag.timers
       (DocumentDrag.run client (DocumentDrag.constructor client v)
          (es ++ [DocumentDrag.Elapse 50])) = [].
Proof.
  destruct (DocumentDrag_run_accounted client v es) as (H1 & H2 & H3).
  split; [exact H1|]. split; [exact H2|].
  unfold DocumentDrag.run in *. rewrite fold_left_app.
  set (s := fold_left (DocumentDrag.step client) es
              (DocumentDrag.constructor client v)) in *.
  cbn [fold_left DocumentDrag.step]. unfold DocumentDrag.elapse.
  match goal with
  | |- DocumentDrag.timers (fold_left _ ?cs ?x) = _ =>
      destruct (DocumentDrag_callbacks_count client cs x) as (E1 & _)
  end.
  rewrite E1. simpl. apply all_due_none_kept. exact H3.
Qed.

Section ViewDragWindow.
Variable client : Client.

Lemma ViewDrag_reachable_ok (v : EditorView) (es : list ViewDrag.Event) :
  single_timer (ViewDrag.run client (ViewDrag.constructor client v) es).
Proof. apply ViewDrag_run_ok, ViewDrag_constructor_ok. Qed.

(** Before its timer is due, time passing changes nothing but the
    clock. *)
Lemma ViewDrag_elapse_early (s : ViewDrag.Plugin) (t : Timer ViewDrag.Callback)
    (ms : nat) :
  ViewDrag.timers s = [t] -> (ViewDrag.now s + ms < due t)%nat ->
  ViewDrag.elapse ms s =
  ViewDrag.mkPlugin (ViewDrag.isDragging s) (ViewDrag.dragEndTimeout s)
    (ViewDrag.decorations s) (ViewDrag.view s) [t] (ViewDrag.nextTimer s)
    (ViewDrag.now s + ms)%nat (ViewDrag.dispatched s) (ViewDrag.rebuilds s)
    (ViewDrag.log s).
Proof.
  intros Ht Hdue. unfold ViewDrag.elapse. rewrite Ht. simpl. unfold is_due.
  assert (Nat.leb (due t) (ViewDrag.now s + ms) = false) as ->
    by (apply Nat.leb_gt; lia).
  reflexivity.
Qed.

End ViewDragWindow.

Section ViewDragRelease.
Variable client : Client.

(** The state of the [latex.ts] controller [a] ms after a release, for
    [a] below 200: the flag is still set and the timer still pending. *)
Lemma ViewDrag_release_then_wait (s : ViewDrag.Plugin) (a : nat) :
  single_timer s -> ViewDrag.isDragging s = true -> (a < 200)%nat ->
  ViewDrag.elapse a (ViewDrag.handleDragEnd s) =
  ViewDrag.mkPlugin true (Some (ViewDrag.nextTimer s)) (ViewDrag.decorations s)
    (ViewDrag.view s)
    [mkTimer (ViewDrag.nextTimer s) (ViewDrag.now s + 200)%nat ViewDrag.DragEnded]
    (S (ViewDrag.nextTimer s)) (ViewDrag.now s + a)%nat (ViewDrag.dispatched s)
    (ViewDrag.rebuilds s) (ViewDrag.log s).
Proof.
  intros Hok Hd Ha.
  pose proof (ViewDrag_handleDragEnd_timers s Hok) as Ht.
  rewrite (ViewDrag_elapse_early _ _ a Ht) by (simpl; lia).
  simpl. now rewrite Hd.
Qed.

Lemma ViewDrag_release_step (s : ViewDrag.Plugin) (type : EventType)
    (buttons : Z) :
  ViewDrag.isDragging s = true -> type = mouseup \/ type = mouseleave ->
  ViewDrag.step client s (ViewDrag.Dom type buttons) = ViewDrag.handleDragEnd s.
Proof. intros Hd [-> | ->]; simpl; now rewrite Hd. Qed.

Lemma ViewDrag_step_elapse (s : ViewDrag.Plugin) (ms : nat) :
  ViewDrag.step client s (ViewDrag.Elapse ms) = ViewDrag.elapse ms s.
Proof. reflexivity. Qed.

End ViewDragRelease.

(** In [latex.ts] the drag flag outlives the release by 200 ms.  After a
    mouse up or mouse leave that ends a drag, an update that sets the
    selection without changing the document is still ignored as long as
    fewer than 200 ms have passed; once they have passed, the first such
    update rebuilds the decorations from the updated view. *)
Theorem selection_is_ignored_for_200ms_after_release
    (client : Client) (v : EditorView) (es : list ViewDrag.Event)
    (s : ViewDrag.Plugin) (type : EventType) (buttons : Z) (u : ViewUpdate) :
  s = ViewDrag.run client (ViewDrag.constructor client v) es ->
  ViewDrag.isDragging s = true ->
  type = mouseup \/ type = mouseleave ->
  selectionSet u = true -> docChanged u = false ->
  (forall a, (a < 200)%nat ->
     ViewDrag.isDragging
       (ViewDrag.run client s [ViewDrag.Dom type buttons; ViewDrag.Elapse a]) = true
     /\ ViewDrag.decorations
          (ViewDrag.run client s
             [ViewDrag.Dom type buttons; ViewDrag.Elapse a; ViewDrag.Update u]) =
        ViewDrag.decorations s
     /\ ViewDrag.rebuilds
          (ViewDrag.run client s
             [ViewDrag.Dom type buttons; ViewDrag.Elapse a; ViewDrag.Update u]) =
        ViewDrag.rebuilds s)
  /\ (forall a, (200 <= a)%nat ->
        ViewDrag.isDragging
          (ViewDrag.run client s [ViewDrag.Dom type buttons; ViewDrag.Elapse a]) = false
        /\ ViewDrag.decorations
             (ViewDrag.run client s
                [ViewDrag.Dom type buttons; ViewDrag.Elapse a; ViewDrag.Update u]) =
           fst (createLatexDecorations (update_view u) client)
        /\ ViewDrag.rebuilds
             (ViewDrag.run client s
                [ViewDrag.Dom type buttons; ViewDrag.Elapse a; ViewDrag.Update u]) =
           S (ViewDrag.rebuilds s)).
Proof.
  intros Hs Hd Hty Hsel Hdoc.
  assert (single_timer s) as Hok by (subst s; apply ViewDrag_reachable_ok).
  unfold ViewDrag.run. cbn [fold_left].
  rewrite (ViewDrag_release_step client s type buttons Hd Hty).
  cbn [ViewDrag.step]. split.
  - intros a Ha. rewrite (ViewDrag_release_then_wait s a Hok Hd Ha).
    split; [reflexivity|]. unfold ViewDrag.update. simpl.
    rewrite Hsel, Hdoc. simpl. split; reflexivity.
  - intros a Ha.
    destruct (ViewDrag_drag_end s Hok) as (_ & _ & _ & Hlate).
    destruct (Hlate a Ha) as [Hflag _]. split; [exact Hflag|].
    unfold ViewDrag.update. cbn [ViewDrag.isDragging ViewDrag.set_view].
    rewrite Hflag, Hsel, orb_true_r. cbn [andb orb].
    unfold ViewDrag.rebuild.
    destruct (createLatexDecorations (update_view u) client) as [set logged].
    cbn [ViewDrag.decorations ViewDrag.rebuilds ViewDrag.set_view fst].
    split; [reflexivity|]. f_equal. unfold ViewDrag.elapse.
    match goal with
    | |- ViewDrag.rebuilds (fold_left _ ?cs ?x) = _ =>
        destruct (ViewDrag_callbacks cs x) as (_ & _ & _ & _ & H7 & _)
    end.
    exact H7.
Qed.

(** The drag end of [latex.ts] is debounced: a second release (mouse up
    or mouse leave with the flag still set) within the 200 ms puts a new
    timer in the place of the first, and the flag is cleared 200 ms after
    the second release, not after the first. *)
Theorem second_release_postpones_the_drag_end
    (client : Client) (v : EditorView) (es : list ViewDrag.Event)
    (s : ViewDrag.Plugin) (type1 type2 : EventType) (buttons1 buttons2 : Z)
    (a : nat) :
  s = ViewDrag.run client (ViewDrag.constructor client v) es ->
  ViewDrag.isDragging s = true ->
  type1 = mouseup \/ type1 = mouseleave ->
  type2 = mouseup \/ type2 = mouseleave ->
  (a < 200)%nat ->
  ViewDrag.timers
    (ViewDrag.run client s
       [ViewDrag.Dom type1 buttons1; ViewDrag.Elapse a;
        ViewDrag.Dom type2 buttons2]) =
  [mkTimer (S (ViewDrag.nextTimer s)) (ViewDrag.now s + a + 200)%nat
           ViewDrag.DragEnded]
  /\ (forall b, (b < 200)%nat ->
        ViewDrag.isDragging
          (ViewDrag.run client s
             [ViewDrag.Dom type1 buttons1; ViewDrag.Elapse a;
              ViewDrag.Dom type2 buttons2; ViewDrag.Elapse b]) = true)
  /\ (forall b, (200 <= b)%nat ->
        ViewDrag.isDragging
          (ViewDrag.run client s
             [ViewDrag.Dom type1 buttons1; ViewDrag.Elapse a;
              ViewDrag.Dom type2 buttons2; ViewDrag.Elapse b]) = false).
Proof.
  intros Hs Hd Hty1 Hty2 Ha.
  assert (single_timer s) as Hok by (subst s; apply ViewDrag_reachable_ok).
  unfold ViewDrag.run. cbn [fold_left].
  rewrite (ViewDrag_release_step client s type1 buttons1 Hd Hty1).
  rewrite !ViewDrag_step_elapse.
  assert (single_timer (ViewDrag.elapse a (ViewDrag.handleDragEnd s))) as Hok2
    by now apply ViewDrag_elapse_ok, ViewDrag_handleDragEnd_ok.
  assert (ViewDrag.isDragging (ViewDrag.elapse a (ViewDrag.handleDragEnd s)) = true)
    as Hd2 by now rewrite (ViewDrag_release_then_wait s a Hok Hd Ha).
  rewrite (ViewDrag_release_step client _ type2 buttons2 Hd2 Hty2).
  destruct (ViewDrag_drag_end _ Hok2) as (Ht & _ & Hearly & Hlate).
  split; [|split].
  - rewrite Ht. now rewrite (ViewDrag_release_then_wait s a Hok Hd Ha).
  - intros b Hb. rewrite ViewDrag_step_elapse. now rewrite (Hearly b Hb).
  - intros b Hb. rewrite ViewDrag_step_elapse. now destruct (Hlate b Hb).
Qed.

(** A pointer down does not cancel the pending drag end of [latex.ts]:
    when a new drag starts within 200 ms of a release, the timer of that
    release is still pending, and when it runs it clears the flag although
    the new drag has not been released. *)
Theorem pending_drag_end_clears_the_flag_of_the_next_drag
    (client : Client) (v : EditorView) (es : list ViewDrag.Event)
    (s : ViewDrag.Plugin) (type : EventType) (b1 b2 b3 : Z) :
  s = ViewDrag.run client (ViewDrag.constructor client v) es ->
  ViewDrag.isDragging s = true ->
  type = mouseup \/ type = mouseleave ->
  b3 <> 0 ->
  ViewDrag.isDragging
    (ViewDrag.run client s
       [ViewDrag.Dom type b1; ViewDrag.Dom mousedown b2;
        ViewDrag.Dom mousemove b3]) = true
  /\ ViewDrag.timers
       (ViewDrag.run client s
          [ViewDrag.Dom type b1; ViewDrag.Dom mousedown b2;
           ViewDrag.Dom mousemove b3]) =
     [mkTimer (ViewDrag.nextTimer s) (ViewDrag.now s + 200)%nat ViewDrag.DragEnded]
  /\ (forall ms, (200 <= ms)%nat ->
        ViewDrag.isDragging
          (ViewDrag.run client s
             [ViewDrag.Dom type b1; ViewDrag.Dom mousedown b2;
              ViewDrag.Dom mousemove b3; ViewDrag.Elapse ms]) = false).
Proof.
  intros Hs Hd Hty Hb.
  assert (single_timer s) as Hok by (subst s; apply ViewDrag_reachable_ok).
  pose proof (ViewDrag_handleDragEnd_timers s Hok) as Ht.
  unfold ViewDrag.run. cbn [fold_left].
  rewrite (ViewDrag_release_step client s type b1 Hd Hty).
  rewrite ?ViewDrag_step_elapse.
  cbn [ViewDrag.step]. apply Z.eqb_neq in Hb. rewrite Hb. cbn [negb].
  split; [reflexivity|]. split; [exact Ht|].
  intros ms Hms. unfold ViewDrag.elapse.
  cbn [ViewDrag.timers ViewDrag.set_isDragging ViewDrag.now].
  rewrite Ht. cbn [List.filter]. unfold is_due. cbn [due].
  change (ViewDrag.now (ViewDrag.handleDragEnd s)) with (ViewDrag.now s).
  assert (Nat.leb (ViewDrag.now s + 200) (ViewDrag.now s + ms) = true) as ->
    by (apply Nat.leb_le; lia).
  reflexivity.
Qed.

Lemma selection_is_ignored_for_200ms_after_release_witness :
  ViewDrag.isDragging
    (ViewDrag.run sample_client view_dragging
       [ViewDrag.Dom mouseup 0; ViewDrag.Elapse 100]) = true
  /\ ViewDrag.isDragging
       (ViewDrag.run sample_client view_dragging
          [ViewDrag.Dom mouseup 0; ViewDrag.Elapse 200]) = false.
Proof.
  destruct (selection_is_ignored_for_200ms_after_release sample_client
              (euler_view 0) [ViewDrag.Dom mousemove 1] view_dragging mouseup 0
              (selection_update (euler_view 25))
              eq_refl eq_refl (or_introl eq_refl) eq_refl eq_refl)
    as [Hearly Hlate].
  split.
  - assert (100 < 200)%nat as H by lia. exact (proj1 (Hearly 100%nat H)).
  - exact (proj1 (Hlate 200%nat (le_n 200))).
Defined.

Lemma second_release_postpones_the_drag_end_witness :
  ViewDrag.isDragging
    (ViewDrag.run sample_client view_dragging
       [ViewDrag.Dom mouseup 0; ViewDrag.Elapse 150;
        ViewDrag.Dom mouseleave 0; ViewDrag.Elapse 150]) = true.
Proof.
  assert (150 < 200)%nat as H by lia.
  destruct (second_release_postpones_the_drag_end sample_client
              (euler_view 0) [ViewDrag.Dom mousemove 1] view_dragging
              mouseup mouseleave 0 0 150
              eq_refl eq_refl (or_introl eq_refl) (or_intror eq_refl) H)
    as (_ & Hearly & _).
  exact (Hearly 150%nat H).
Defined.

Lemma pending_drag_end_clears_the_flag_of_the_next_drag_witness :
  ViewDrag.isDragging
    (ViewDrag.run sample_client view_dragging
       [ViewDrag.Dom mouseup 0; ViewDrag.Dom mousedown 1;
        ViewDrag.Dom mousemove 1; ViewDrag.Elapse 200]) = false.
Proof.
  assert (1 <> 0) as H by discriminate.
  destruct (pending_drag_end_clears_the_flag_of_the_next_drag sample_client
              (euler_view 0) [ViewDrag.Dom mousemove 1] view_dragging
              mouseup 0 1 1 eq_refl eq_refl (or_introl eq_refl) H)
    as (_ & _ & Hlate).
  exact (Hlate 200%nat (le_n 200)).
Defined.

(** ** The editor *)

Lemma completer_loop_spec {R : Type} (results : list (option R))
    (actualResult : option R) :
  completer_loop R results actualResult =
  match actualResult, offers R results with
  | None, [] => (None, [])
  | None, [r] => (Some r, [])
  | Some a, [] => (Some a, [])
  | _, _ =>
      (None,
       [ConsoleError
          ["Got completion results from multiple sources, cannot deal with that"]])
  end.
Proof.
  revert actualResult. induction results as [|result rest IH]; intros acc.
  - destruct acc; reflexivity.
  - destruct result as [r|]; simpl.
    + destruct acc as [a|]; [reflexivity|]. rewrite IH.
      destruct (offers R rest); reflexivity.
    + apply IH.
Qed.

(** [completer] hands on a completion result only when exactly one
    source offers one.  With no offer it returns null in silence; with
    two or more it returns null and writes one error to the console,
    however many offers there are. *)
Theorem completer_needs_exactly_one_offer {R : Type}
    (results : list (option R)) :
  completer R results =
  match offers R results with
  | [] => (None, [])
  | [r] => (Some r, [])
  | _ :: _ :: _ =>
      (None,
       [ConsoleError
          ["Got completion results from multiple sources, cannot deal with that"]])
  end.
Proof.
  unfold completer. rewrite completer_loop_spec.
  destruct (offers R results) as [|r [|r' rest]]; reflexivity.
Qed.

Lemma PageStates_lookup_kept (page : string) (ops : list PageStates.Op)
    (ed : PageStates.Editor) :
  PageStates.no_save_on page ed ops ->
  PageStates.openPages (PageStates.run ed ops) !! Some page =
  PageStates.openPages ed !! Some page.
Proof.
  revert ed. induction ops as [|op ops IH]; intros ed H; [reflexivity|].
  destruct H as [Hop Hrest]. unfold PageStates.run in *. simpl.
  rewrite (IH _ Hrest).
  destruct op as [p | top | sel | | name]; try reflexivity.
  - simpl. apply lookup_insert_ne. intros E. now apply Hop.
  - simpl. unfold PageStates.restoreState.
    destruct (PageStates.openPages ed !! Some name); reflexivity.
Qed.

(** Coming back to a page restores it as it was left.  When the state
    of the current page is saved and, whatever happens in between, no
    state is saved for that page again, restoring the page sets the
    scroll position to the one saved and dispatches the selection saved.
    Restoring a page for which nothing was saved only focuses the
    editor. *)
Theorem revisiting_a_page_restores_its_state
    (ed : PageStates.Editor) (page : string) (ops : list PageStates.Op) :
  PageStates.currentPage ed = Some page ->
  PageStates.no_save_on page (PageStates.saveState ed) ops ->
  PageStates.scrollTop
    (PageStates.restoreState page
       (PageStates.run (PageStates.saveState ed) ops)) =
  PageStates.scrollTop ed
  /\ PageStates.dispatched
       (PageStates.restoreState page
          (PageStates.run (PageStates.saveState ed) ops)) =
     PageStates.dispatched (PageStates.run (PageStates.saveState ed) ops)
     ++ [PageStates.view_selection ed]
  /\ (forall other ed',
        PageStates.openPages ed' !! Some other = None ->
        PageStates.restoreState other ed' =
        PageStates.mkEditor (PageStates.openPages ed')
          (PageStates.currentPage ed') (PageStates.scrollTop ed')
          (PageStates.view_selection ed') (PageStates.dispatched ed')
          (S (PageStates.focused ed'))).
Proof.
  intros Hcur Hops.
  pose proof (PageStates_lookup_kept page ops _ Hops) as Hl.
  assert (PageStates.openPages (PageStates.saveState ed) !! Some page =
          Some (PageStates.mkPageState (PageStates.scrollTop ed)
                                       (PageStates.view_selection ed))) as Hs.
  { unfold PageStates.saveState. simpl. rewrite Hcur. apply lookup_insert_eq. }
  rewrite Hs in Hl. unfold PageStates.restoreState at 1 2. rewrite Hl. simpl.
  split; [reflexivity|]. split; [reflexivity|].
  intros other ed' Hnone. unfold PageStates.restoreState. now rewrite Hnone.
Qed.

Lemma revisiting_a_page_restores_its_state_witness :
  PageStates.scrollTop
    (PageStates.restoreState "index"
       (PageStates.run (PageStates.saveState sample_pages) visit_elsewhere)) =
  PageStates.scrollTop sample_pages.
Proof.
  refine (proj1 (revisiting_a_page_restores_its_state sample_pages "index"
                   visit_elsewhere eq_refl _)).
  cbn [PageStates.no_save_on visit_elsewhere PageStates.step
       PageStates.currentPage PageStates.saveState].
  repeat split; intros; discriminate.
Defined.

(** *** Saving *)

Lemma EditorSave_cleared_subset (id : nat) (l : list (Timer EditorSave.Callback))
    (p : nat) :
  In p (map (fun t => EditorSave.callback_promise (callback t)) (clearTimeout id l)) ->
  In p (map (fun t => EditorSave.callback_promise (callback t)) l).
Proof.
  rewrite !in_map_iff. intros (t & Hp & Ht). exists t. split; [exact Hp|].
  unfold clearTimeout in Ht. now apply filter_In in Ht as [Ht _].
Qed.

Lemma EditorSave_filter_subset {A} (g : A -> nat) (f : A -> bool) (l : list A)
    (p : nat) :
  In p (map g (List.filter f l)) -> In p (map g l).
Proof.
  rewrite !in_map_iff. intros (t & Hp & Ht). exists t. split; [exact Hp|].
  now apply filter_In in Ht as [Ht _].
Qed.

(** What the callbacks of [save] leave behind: each one moves its own
    promise to the writes in flight or to the settled promises, and
    touches nothing else that matters here. *)
Lemma EditorSave_callbacks_frame (cs : list EditorSave.Callback)
    (s : EditorSave.Editor) :
  let s' := fold_left EditorSave.run_callback cs s in
  EditorSave.timers s' = EditorSave.timers s
  /\ EditorSave.saveTimeout s' = EditorSave.saveTimeout s
  /\ EditorSave.nextTimer s' = EditorSave.nextTimer s
  /\ EditorSave.nextPromise s' = EditorSave.nextPromise s
  /\ (forall q, In q (EditorSave.write_promises s')
                \/ In q (EditorSave.settled_promises s') ->
                In q (EditorSave.write_promises s)
                \/ In q (EditorSave.settled_promises s)
                \/ In q (map EditorSave.callback_promise cs)).
Proof.
  revert s. induction cs as [|c cs IH]; intros s; simpl.
  - repeat split. intros q [H|H]; [now left | right; now left].
  - destruct (IH (EditorSave.run_callback s c)) as (H1 & H2 & H3 & H4 & H5).
    destruct c as [p]. unfold EditorSave.run_callback in *.
    destruct (EditorSave.truthy (EditorSave.currentPage s)); simpl in *;
      rewrite H1, H2, H3, H4; repeat split; intros q Hq;
      destruct (H5 q Hq) as [Hw|[Hs|Hc]];
      unfold EditorSave.write_promises, EditorSave.settled_promises in *;
      simpl in *; rewrite ?map_app, ?in_app_iff in *; simpl in *;
      intuition auto.
Qed.

Lemma EditorSave_single_cleared (s : EditorSave.Editor) :
  EditorSave.well_formed s ->
  match EditorSave.saveTimeout s with
  | Some id =>
      if Nat.eqb id 0 then EditorSave.timers s
      else clearTimeout id (EditorSave.timers s)
  | None => EditorSave.timers s
  end = [].
Proof.
  intros (_ & [Ht | (t & Ht & Hh & Hz)] & _).
  - rewrite Ht. destruct (EditorSave.saveTimeout s) as [id|]; [|reflexivity].
    destruct (Nat.eqb id 0); reflexivity.
  - rewrite Hh, Ht. apply Nat.eqb_neq in Hz. rewrite Hz.
    unfold clearTimeout. simpl. now rewrite Nat.eqb_refl.
Qed.

Lemma EditorSave_save_ok (immediate : bool) (s : EditorSave.Editor) :
  EditorSave.well_formed s -> EditorSave.well_formed (EditorSave.save immediate s).
Proof.
  intros Hwf. pose proof (EditorSave_single_cleared s Hwf) as Hc.
  destruct Hwf as (HA & HB & HC & HD).
  unfold EditorSave.save. simpl. destruct (EditorSave.unsavedChanges s); simpl.
  - rewrite Hc. unfold EditorSave.well_formed, EditorSave.timer_promises,
      EditorSave.write_promises, EditorSave.settled_promises in *. simpl.
    split; [lia|]. split.
    { right. eexists. split; [reflexivity|]. simpl. split; [reflexivity | lia]. }
    split.
    + intros p [[<-|[]]|[H|H]]; [lia| |]; (assert (p < EditorSave.nextPromise s)%nat
        by (apply HC; auto)); lia.
    + intros p [<-|[]]. split; intros H;
        (assert (EditorSave.nextPromise s < EditorSave.nextPromise s)%nat
          by (apply HC; auto)); lia.
  - unfold EditorSave.well_formed, EditorSave.timer_promises,
      EditorSave.write_promises, EditorSave.settled_promises in *. simpl.
    split; [exact HA|]. split; [exact HB|]. split.
    + intros p H. rewrite map_app, in_app_iff in H. simpl in H.
      destruct H as [H|[H|[H|[<-|[]]]]]; [| | |lia];
        (assert (p < EditorSave.nextPromise s)%nat by (apply HC; auto)); lia.
    + intros p H. destruct (HD p H) as [H1 H2]. split; [exact H1|].
      rewrite map_app, in_app_iff. simpl. intros [H3|[<-|[]]]; [now apply H2|].
      assert (EditorSave.nextPromise s < EditorSave.nextPromise s)%nat
        by (apply HC; auto). lia.
Qed.

Lemma EditorSave_elapse_ok (ms : nat) (s : EditorSave.Editor) :
  EditorSave.well_formed s -> EditorSave.well_formed (EditorSave.elapse ms s).
Proof.
  intros (HA & HB & HC & HD). unfold EditorSave.elapse.
  match goal with
  | |- EditorSave.well_formed (fold_left _ ?cs ?x) =>
      destruct (EditorSave_callbacks_frame cs x) as (E1 & E2 & E3 & E4 & E5)
  end.
  unfold EditorSave.well_formed, EditorSave.timer_promises in *.
  rewrite E1, E2, E3, E4. simpl in *.
  split; [exact HA|].
  assert (forall q,
            In q (map EditorSave.callback_promise
                    (map callback
                       (List.filter (is_due (EditorSave.now s + ms))
                                    (EditorSave.timers s)))) ->
            In q (map (fun t => EditorSave.callback_promise (callback t))
                      (EditorSave.timers s))) as Hfired.
  { intros q. rewrite map_map. apply EditorSave_filter_subset. }
  split; [|split].
  - destruct HB as [Ht | (t & Ht & Hh & Hz)]; rewrite Ht; simpl; [now left|].
    destruct (is_due _ t); simpl; [now left|]. right. exists t. now repeat split.
  - intros p [H|H].
    + apply HC. left. revert H. apply EditorSave_filter_subset.
    + destruct (E5 p H) as [Hw|[Hs|Hc]]; apply HC; auto.
  - intros p Hp.
    assert (In p (map (fun t => EditorSave.callback_promise (callback t))
                      (EditorSave.timers s))) as Hp'
      by (revert Hp; apply EditorSave_filter_subset).
    assert (EditorSave.timers s =
            List.filter (fun t => negb (is_due (EditorSave.now s + ms) t))
                        (EditorSave.timers s)
            /\ List.filter (is_due (EditorSave.now s + ms)) (EditorSave.timers s) = [])
      as [_ Hnone].
    { destruct HB as [Ht | (t & Ht & _)]; rewrite Ht in *; simpl in *.
      - destruct Hp.
      - destruct (is_due _ t); simpl in *; [destruct Hp | now split]. }
    rewrite Hnone in E5 |- *. destruct (HD p Hp') as [H1 H2].
    split; intros H.
    + exact (H1 H).
    + exact (H2 H).
Qed.

Lemma EditorSave_answered_promise (p : nat) (s : EditorSave.Editor) :
  existsb (fun w => Nat.eqb (EditorSave.write_promise w) p) (EditorSave.writes s)
  = true ->
  In p (EditorSave.write_promises s).
Proof.
  intros H. apply existsb_exists in H as (w & Hw & He).
  apply Nat.eqb_eq in He. subst p. unfold EditorSave.write_promises.
  now apply in_map.
Qed.

Lemma EditorSave_answer_ok (p : nat) (failure : option string)
    (s : EditorSave.Editor) :
  EditorSave.well_formed s -> EditorSave.well_formed (EditorSave.answer p failure s).
Proof.
  intros Hwf. unfold EditorSave.answer.
  destruct (existsb _ _) eqn:He; [|exact Hwf].
  apply EditorSave_answered_promise in He.
  destruct Hwf as (HA & HB & HC & HD).
  assert (EditorSave.well_formed
            (EditorSave.mkEditor (EditorSave.unsavedChanges s)
               (EditorSave.currentPage s) (EditorSave.docText s)
               (EditorSave.saveTimeout s) (EditorSave.timers s)
               (EditorSave.nextTimer s) (EditorSave.now s)
               (EditorSave.nextPromise s)
               (EditorSave.settled s ++ [(p, EditorSave.Resolved)])
               (List.filter (fun w => negb (Nat.eqb (EditorSave.write_promise w) p))
                            (EditorSave.writes s))
               (EditorSave.pageSaved s) (EditorSave.log s))) as Hgen.
  { unfold EditorSave.well_formed, EditorSave.timer_promises,
      EditorSave.write_promises, EditorSave.settled_promises in *. simpl.
    split; [exact HA|]. split; [exact HB|]. split.
    - intros q [H|[H|H]].
      + apply HC. now left.
      + apply HC. right. left. revert H. apply EditorSave_filter_subset.
      + rewrite map_app, in_app_iff in H. simpl in H.
        destruct H as [H|[<-|[]]]; apply HC; auto.
    - intros q Hq. destruct (HD q Hq) as [H1 H2]. split.
      + intros H. apply H1. revert H. apply EditorSave_filter_subset.
      + rewrite map_app, in_app_iff. simpl. intros [H|[<-|[]]]; auto. }
  destruct failure as [reason|]; [|exact Hgen].
  unfold EditorSave.well_formed, EditorSave.timer_promises,
    EditorSave.write_promises, EditorSave.settled_promises in *.
  simpl in *. rewrite map_app in *. exact Hgen.
Qed.

Lemma EditorSave_step_ok (s : EditorSave.Editor) (e : EditorSave.Event) :
  EditorSave.well_formed s -> EditorSave.well_formed (EditorSave.step s e).
Proof.
  intros Hwf. destruct e as [immediate | ms | p failure | unsaved page | text |];
    simpl.
  - now apply EditorSave_save_ok.
  - now apply EditorSave_elapse_ok.
  - now apply EditorSave_answer_ok.
  - exact Hwf.
  - exact Hwf.
  - destruct (EditorSave.saveTimeout s) as [id|] eqn:Hh; [|exact Hwf].
    destruct Hwf as (HA & HB & HC & HD).
    assert (clearTimeout id (EditorSave.timers s) = []) as Hc.
    { destruct HB as [Ht | (t & Ht & Hid & _)]; rewrite Ht; [reflexivity|].
      rewrite Hh in Hid. injection Hid as ->.
      unfold clearTimeout. simpl. now rewrite Nat.eqb_refl. }
    unfold EditorSave.well_formed, EditorSave.timer_promises,
      EditorSave.write_promises, EditorSave.settled_promises in *.
    simpl. rewrite Hc. simpl. split; [exact HA|]. split; [now left|]. split.
    + intros p [[]|H]. apply HC. now right.
    + intros p [].
Qed.

Lemma EditorSave_run_ok (es : list EditorSave.Event) (s : EditorSave.Editor) :
  EditorSave.well_formed s -> EditorSave.well_formed (EditorSave.run s es).
Proof.
  revert s. induction es as [|e es IH]; intros s H; [exact H|].
  apply IH. now apply EditorSave_step_ok.
Qed.

Lemma EditorSave_new_ok (page : option string) (text : string) :
  EditorSave.well_formed (EditorSave.new_editor page text).
Proof.
  unfold EditorSave.well_formed, EditorSave.new_editor. simpl.
  split; [lia|]. split; [now left|]. split.
  - intros p [[]|[[]|[]]].
  - intros p [].
Qed.

(** A promise nothing holds stays that way. *)
Lemma EditorSave_step_abandoned (p : nat) (s : EditorSave.Editor)
    (e : EditorSave.Event) :
  EditorSave.abandoned p s -> EditorSave.abandoned p (EditorSave.step s e).
Proof.
  intros (Hlt & Ht & Hw & Hs).
  destruct e as [immediate | ms | q failure | unsaved page | text |]; simpl.
  - unfold EditorSave.save. simpl.
    destruct (EditorSave.unsavedChanges s); simpl;
      unfold EditorSave.abandoned, EditorSave.timer_promises,
        EditorSave.write_promises, EditorSave.settled_promises in *; simpl.
    + split; [lia|]. split; [|now split].
      rewrite map_app, in_app_iff. simpl. intros [H|[H|[]]]; [|lia].
      apply Ht. destruct (EditorSave.saveTimeout s) as [id|]; [|exact H].
      destruct (Nat.eqb id 0); [exact H|].
      revert H. apply EditorSave_cleared_subset.
    + split; [lia|]. split; [exact Ht|]. split; [exact Hw|].
      rewrite map_app, in_app_iff. simpl. intros [H|[H|[]]]; [now apply Hs | lia].
  - unfold EditorSave.elapse.
    match goal with
    | |- EditorSave.abandoned p (fold_left _ ?cs ?x) =>
        destruct (EditorSave_callbacks_frame cs x) as (E1 & E2 & E3 & E4 & E5)
    end.
    unfold EditorSave.abandoned, EditorSave.timer_promises in *.
    rewrite E1, E4. simpl in *.
    assert (~ In p (map EditorSave.callback_promise
                      (map callback
                         (List.filter (is_due (EditorSave.now s + ms))
                                      (EditorSave.timers s))))) as Hf.
    { rewrite map_map. intros H. apply Ht. revert H.
      apply EditorSave_filter_subset. }
    split; [exact Hlt|]. split.
    + intros H. apply Ht. revert H. apply EditorSave_filter_subset.
    + split; intros H.
      * destruct (E5 p (or_introl H)) as [H1|[H1|H1]]; auto.
      * destruct (E5 p (or_intror H)) as [H1|[H1|H1]]; auto.
  - unfold EditorSave.answer. destruct (existsb _ _) eqn:He;
      [|now repeat split].
    apply EditorSave_answered_promise in He.
    assert (q <> p) as Hne by (intros ->; now apply Hw).
    destruct failure as [reason|];
      unfold EditorSave.abandoned, EditorSave.timer_promises,
        EditorSave.write_promises, EditorSave.settled_promises in *; simpl;
      (split; [exact Hlt|]); (split; [exact Ht|]); split;
      try (intros H; apply Hw; revert H; apply EditorSave_filter_subset);
      rewrite map_app, in_app_iff; simpl; intros [H|[H|[]]]; auto.
  - now repeat split.
  - now repeat split.
  - destruct (EditorSave.saveTimeout s) as [id|]; [|now repeat split].
    unfold EditorSave.abandoned, EditorSave.timer_promises in *. simpl.
    split; [exact Hlt|]. split; [|now split].
    intros H. apply Ht. revert H. apply EditorSave_cleared_subset.
Qed.

Lemma EditorSave_run_abandoned (p : nat) (es : list EditorSave.Event)
    (s : EditorSave.Editor) :
  EditorSave.abandoned p s -> EditorSave.abandoned p (EditorSave.run s es).
Proof.
  revert s. induction es as [|e es IH]; intros s H; [exact H|].
  apply IH. now apply EditorSave_step_abandoned.
Qed.

(** At most one save is waiting for its timer at any time. *)
Theorem at_most_one_save_is_scheduled
    (page : option string) (text : string) (es : list EditorSave.Event) :
  (length (EditorSave.timers
             (EditorSave.run (EditorSave.new_editor page text) es)) <= 1)%nat.
Proof.
  destruct (EditorSave_run_ok es _ (EditorSave_new_ok page text))
    as (_ & [Ht | (t & Ht & _)] & _); rewrite Ht; simpl; lia.
Qed.

(** A save that is overtaken never settles.  When [save] is called with
    unsaved changes while an earlier call is still waiting for its timer,
    the earlier timer is cleared, and the promise of the earlier call is
    neither resolved nor rejected, whatever happens afterwards. *)
Theorem overtaken_save_never_settles
    (page : option string) (text : string) (es1 es2 : list EditorSave.Event)
    (s : EditorSave.Editor) (t : Timer EditorSave.Callback) (immediate : bool)
    (how : EditorSave.Settlement) :
  s = EditorSave.run (EditorSave.new_editor page text) es1 ->
  EditorSave.timers s = [t] ->
  EditorSave.unsavedChanges s = true ->
  ~ In (EditorSave.callback_promise (callback t), how)
       (EditorSave.settled
          (EditorSave.run s (EditorSave.Save immediate :: es2))).
Proof.
  intros Hs Ht Hu.
  assert (EditorSave.well_formed s) as Hwf
    by (subst s; apply EditorSave_run_ok, EditorSave_new_ok).
  set (p := EditorSave.callback_promise (callback t)).
  assert (EditorSave.abandoned p (EditorSave.save immediate s)) as Hab.
  { pose proof (EditorSave_single_cleared s Hwf) as Hc.
    destruct Hwf as (HA & HB & HC & HD).
    assert (In p (EditorSave.timer_promises s)) as Hp
      by (unfold EditorSave.timer_promises; rewrite Ht; now left).
    destruct (HD p Hp) as [H1 H2].
    assert (p < EditorSave.nextPromise s)%nat as Hlt by (apply HC; auto).
    unfold EditorSave.save. simpl. rewrite Hu. simpl. rewrite Hc.
    unfold EditorSave.abandoned, EditorSave.timer_promises. simpl.
    split; [lia|]. split; [|now split]. intros [H|[]]. lia. }
  pose proof (EditorSave_run_abandoned p es2 _ Hab) as (_ & _ & _ & Hns).
  intros Hin. apply Hns. unfold EditorSave.settled_promises.
  change p with (fst (p, how)). now apply in_map.
Qed.

(** A save that is not overtaken completes.  With unsaved changes and a
    current page, [save] schedules one timer (at once when [immediate],
    after [saveInterval] otherwise); when it has run, the text of the
    document is on its way to [writePage] for that page; a fulfilled
    write dispatches [page-saved] once and resolves the promise of the
    call, a rejected write rejects it with the same reason. *)
Theorem save_writes_the_page_and_settles
    (page0 : option string) (text0 : string) (es : list EditorSave.Event)
    (s : EditorSave.Editor) (page : string) (immediate : bool) (ms : nat) :
  s = EditorSave.run (EditorSave.new_editor page0 text0) es ->
  EditorSave.unsavedChanges s = true ->
  EditorSave.currentPage s = Some page -> page <> "" ->
  ((if immediate then 0 else EditorSave.saveInterval) <= ms)%nat ->
  EditorSave.writes
    (EditorSave.run s [EditorSave.Save immediate; EditorSave.Elapse ms]) =
  EditorSave.writes s
  ++ [EditorSave.mkWrite (EditorSave.nextPromise s) page (EditorSave.docText s)]
  /\ EditorSave.settled
       (EditorSave.run s [EditorSave.Save immediate; EditorSave.Elapse ms]) =
     EditorSave.settled s
  /\ EditorSave.settled
       (EditorSave.run s
          [EditorSave.Save immediate; EditorSave.Elapse ms;
           EditorSave.WriteAnswered (EditorSave.nextPromise s) None]) =
     EditorSave.settled s ++ [(EditorSave.nextPromise s, EditorSave.Resolved)]
  /\ EditorSave.pageSaved
       (EditorSave.run s
          [EditorSave.Save immediate; EditorSave.Elapse ms;
           EditorSave.WriteAnswered (EditorSave.nextPromise s) None]) =
     S (EditorSave.pageSaved s)
  /\ (forall reason,
        EditorSave.settled
          (EditorSave.run s
             [EditorSave.Save immediate; EditorSave.Elapse ms;
              EditorSave.WriteAnswered (EditorSave.nextPromise s) (Some reason)]) =
        EditorSave.settled s
        ++ [(EditorSave.nextPromise s, EditorSave.Rejected reason)]
        /\ EditorSave.pageSaved
             (EditorSave.run s
                [EditorSave.Save immediate; EditorSave.Elapse ms;
                 EditorSave.WriteAnswered (EditorSave.nextPromise s) (Some reason)]) =
           EditorSave.pageSaved s).
Proof.
  intros Hs Hu Hpage Hne Hms.
  assert (EditorSave.well_formed s) as Hwf
    by (subst s; apply EditorSave_run_ok, EditorSave_new_ok).
  pose proof (EditorSave_single_cleared s Hwf) as Hc.
  destruct Hwf as (HA & HB & HC & HD).
  assert (EditorSave.step (EditorSave.step s (EditorSave.Save immediate))
            (EditorSave.Elapse ms) =
          EditorSave.mkEditor true (Some page) (EditorSave.docText s)
            (Some (EditorSave.nextTimer s)) [] (S (EditorSave.nextTimer s))
            (EditorSave.now s + ms)%nat (S (EditorSave.nextPromise s))
            (EditorSave.settled s)
            (EditorSave.writes s
             ++ [EditorSave.mkWrite (EditorSave.nextPromise s) page
                                    (EditorSave.docText s)])
            (EditorSave.pageSaved s)
            (EditorSave.log s ++ [ConsoleLog ["Saving page"; page]])) as Hrun.
  { simpl. unfold EditorSave.save. simpl. rewrite Hu. simpl. rewrite Hc.
    unfold EditorSave.elapse. simpl. unfold is_due. simpl.
    assert (Nat.leb (EditorSave.now s
                     + (if immediate then 0 else EditorSave.saveInterval))
                    (EditorSave.now s + ms) = true) as ->
      by (apply Nat.leb_le; lia).
    simpl. rewrite Hpage. unfold EditorSave.truthy, str_eqb.
    apply String.eqb_neq in Hne. rewrite Hne. reflexivity. }
  assert (forall l : list EditorSave.WriteRequest,
            (forall w, In w l ->
               (EditorSave.write_promise w < EditorSave.nextPromise s)%nat) ->
            existsb (fun w => Nat.eqb (EditorSave.write_promise w)
                                      (EditorSave.nextPromise s))
                    (l ++ [EditorSave.mkWrite (EditorSave.nextPromise s) page
                                              (EditorSave.docText s)]) = true
            /\ List.filter
                 (fun w => negb (Nat.eqb (EditorSave.write_promise w)
                                         (EditorSave.nextPromise s)))
                 (l ++ [EditorSave.mkWrite (EditorSave.nextPromise s) page
                                           (EditorSave.docText s)]) = l) as Hfresh.
  { induction l as [|w l IH]; intros Hl; simpl.
    - rewrite Nat.eqb_refl. now split.
    - assert (Nat.eqb (EditorSave.write_promise w) (EditorSave.nextPromise s)
              = false) as ->.
      { apply Nat.eqb_neq. specialize (Hl w (or_introl eq_refl)). lia. }
      simpl. destruct IH as [H1 H2]; [intros w' Hw'; apply Hl; now right|].
      split; [exact H1 | now rewrite H2]. }
  destruct (Hfresh (EditorSave.writes s)) as [Hex Hfil].
  { intros w Hw. apply HC. right. left. unfold EditorSave.write_promises.
    now apply in_map. }
  unfold EditorSave.run. cbn [fold_left]. rewrite Hrun.
  split; [reflexivity|]. split; [reflexivity|].
  cbn [EditorSave.step]. unfold EditorSave.answer.
  cbn [EditorSave.writes]. rewrite Hex, Hfil.
  split; [reflexivity|]. split; [reflexivity|].
  intros reason. split; reflexivity.
Qed.

Lemma overtaken_save_never_settles_witness :
  ~ In (EditorSave.callback_promise
          (callback (mkTimer 1%nat 1000%nat (EditorSave.SaveNow 0))),
        EditorSave.Resolved)
       (EditorSave.settled
          (EditorSave.run waiting_editor
             (EditorSave.Save true
              :: [EditorSave.Elapse 0; EditorSave.WriteAnswered 1 None]))).
Proof.
  exact (overtaken_save_never_settles (Some "index") "hello"
           [EditorSave.ViewState true (Some "index"); EditorSave.Save false]
           [EditorSave.Elapse 0; EditorSave.WriteAnswered 1 None]
           waiting_editor (mkTimer 1%nat 1000%nat (EditorSave.SaveNow 0)) true
           EditorSave.Resolved eq_refl eq_refl eq_refl).
Defined.

Lemma save_writes_the_page_and_settles_witness :
  EditorSave.pageSaved
    (EditorSave.run dirty_editor
       [EditorSave.Save true; EditorSave.Elapse 0;
        EditorSave.WriteAnswered (EditorSave.nextPromise dirty_editor) None]) =
  S (EditorSave.pageSaved dirty_editor).
Proof.
  assert ("index" <> "") as Hne by discriminate.
  destruct (save_writes_the_page_and_settles (Some "index") "hello"
              [EditorSave.ViewState true (Some "index")] dirty_editor "index"
              true 0 eq_refl eq_refl eq_refl Hne (le_n 0))
    as (_ & _ & _ & H & _).
  exact H.
Defined.
